(** * Travel scheduler: packing lists, weather text, document store, dispatch

    A shallow embedding of the Python package [travel_scheduler]
    ([knowledge_helper.py], [weather_tool.py], [database.py], [scheduler.py])
    together with the properties its specification states about it.

    Conventions of the embedding.
    - A Python [str] is a [string]; the characters the code inspects
      (keywords, digits, separators) are ASCII, other characters are carried
      as their UTF-8 bytes. The case mappings [lower], [upper] and [title]
      are Python's on ASCII text and leave every other byte alone.
    - A [Dict[str, Any]] is a [gmap string value].
    - The outside world (MongoDB server, console, language model) is an
      explicit [World]; methods that touch it live in the monad [M], whose
      outcomes are a returned value or a raised exception.
    - Every [datetime.utcnow()] call site is a parameter holding the reading
      of the wall clock at that call; a document is stored with its
      datetimes cut to the millisecond. *)

From Stdlib Require Import ZArith NArith Ascii String List Lia Bool Sorted.
From stdpp Require Import base option list gmap strings.

Local Open Scope Z_scope.
#[local] Arguments String.append !_ _ / : simpl nomatch.

(* ===================================================================== *)
(** * Python string operations *)
(* ===================================================================== *)

Module PyStr.

(** A [str] is carried as the sequence of the bytes of its UTF-8 encoding.
    The case mappings below are Python's on ASCII text: they change the
    letters A-Z and a-z and leave every other byte as it is. Outside ASCII
    Python maps more ([upper] turns a dotless i into I and a sharp s into
    SS, [title] lower-cases a letter that follows an accented one), so what
    is proved of a text put through [upper] or [title] is proved of ASCII
    text, for which [isascii] holds. The keyword tests of the program look
    for ASCII words in [lower] of a text; there the bytes of any other
    character match no letter of a keyword, in the model as in Python. *)

(** [s.isascii()] *)
Fixpoint isascii (s : string) : bool :=
  match s with
  | EmptyString => true
  | String c s' => (N_of_ascii c <? 128)%N && isascii s'
  end.

(** [c.lower()] on an ASCII character. *)
Definition lower_char (c : ascii) : ascii :=
  let n := N_of_ascii c in
  if ((65 <=? n) && (n <=? 90))%N then ascii_of_N (n + 32) else c.

(** [c.upper()] on an ASCII character. *)
Definition upper_char (c : ascii) : ascii :=
  let n := N_of_ascii c in
  if ((97 <=? n) && (n <=? 122))%N then ascii_of_N (n - 32) else c.

Definition is_cased (c : ascii) : bool :=
  let n := N_of_ascii c in
  (((65 <=? n) && (n <=? 90)) || ((97 <=? n) && (n <=? 122)))%N.

(** [s.lower()], on ASCII text *)
Fixpoint lower (s : string) : string :=
  match s with
  | EmptyString => EmptyString
  | String c s' => String (lower_char c) (lower s')
  end.

(** [s.upper()], on ASCII text *)
Fixpoint upper (s : string) : string :=
  match s with
  | EmptyString => EmptyString
  | String c s' => String (upper_char c) (upper s')
  end.

(** [s.title()], on ASCII text: the first cased character of every run of
    cased characters is upper-cased, the others are lower-cased. *)
Fixpoint title_from (previous_is_cased : bool) (s : string) : string :=
  match s with
  | EmptyString => EmptyString
  | String c s' =>
      String (if previous_is_cased then lower_char c else upper_char c)
             (title_from (is_cased c) s')
  end.

Definition title (s : string) : string := title_from false s.

(** [s.startswith(k)] *)
Fixpoint startswith (k s : string) : bool :=
  match k, s with
  | EmptyString, _ => true
  | String _ _, EmptyString => false
  | String a k', String b s' =>
      if Ascii.eqb a b then startswith k' s' else false
  end.

(** [k in s] for two strings: [k] occurs in [s] as a substring. *)
Fixpoint contains (k s : string) : bool :=
  match s with
  | EmptyString => startswith k EmptyString
  | String _ s' => startswith k s || contains k s'
  end.

(** [s[:n]] *)
Fixpoint take (n : nat) (s : string) : string :=
  match n, s with
  | O, _ => EmptyString
  | S _, EmptyString => EmptyString
  | S n', String c s' => String c (take n' s')
  end.

(** [s[n:]] *)
Fixpoint drop (n : nat) (s : string) : string :=
  match n, s with
  | O, _ => s
  | S _, EmptyString => EmptyString
  | S n', String _ s' => drop n' s'
  end.

(** [s[i:j]] for [0 <= i <= j] *)
Definition slice (i j : nat) (s : string) : string :=
  take (j - i) (drop i s).

(** [sep.join(parts)] *)
Fixpoint join (sep : string) (parts : list string) : string :=
  match parts with
  | [] => EmptyString
  | [p] => p
  | p :: rest => p +:+ sep +:+ join sep rest
  end.

(** The concatenation of a list of pieces, in order. *)
Fixpoint concat (parts : list string) : string :=
  match parts with
  | [] => EmptyString
  | p :: rest => p +:+ concat rest
  end.

(** Decimal rendering of a natural number, as [str(n)]. *)
Definition digit (n : nat) : ascii := ascii_of_nat (48 + n mod 10).

Fixpoint digits_fuel (fuel n : nat) (acc : string) : string :=
  match fuel with
  | O => acc
  | S fuel' =>
      let acc' := String (digit n) acc in
      if (n <? 10)%nat then acc' else digits_fuel fuel' (n / 10) acc'
  end.

Definition str_nat (n : nat) : string := digits_fuel (S n) n EmptyString.

(** [str(n).rjust(width, "0")], the zero padding of [%02d] and [%04d]. *)
Fixpoint zeros (n : nat) : string :=
  match n with
  | O => EmptyString
  | S n' => String "0" (zeros n')
  end.

Definition zfill (width n : nat) : string :=
  let s := str_nat n in zeros (width - String.length s) +:+ s.

(** Spec-level reading of "[s] contains [k] as a substring". *)
Definition occurs_in (k s : string) : Prop :=
  exists before after, s = before +:+ k +:+ after.

(** Spec-level reading of "[s] contains [k], case-insensitively": some
    substring of [s] equals [k] up to the case of its letters. *)
Definition occurs_in_ci (k s : string) : Prop :=
  exists before u after, s = before +:+ u +:+ after /\ lower u = lower k.

(** Reads a decimal numeral back. *)
Definition parse_nat (s : string) : nat :=
  fold_left (fun acc c => (10 * acc + (nat_of_ascii c - 48))%nat)
            (list_ascii_of_string s) 0%nat.

End PyStr.

(* ===================================================================== *)
(** * knowledge_helper.py *)
(* ===================================================================== *)

Module TravelKnowledgeHelper.
Import PyStr.

(** [self.travel_data["packing"]], the part of the table the packing list
    reads. *)
Record WeatherGear := {
  hot : list string;
  cold : list string;
  rainy : list string
}.

Record Packing := {
  essentials : list string;
  weather_gear : WeatherGear
}.

Definition packing : Packing := {|
  essentials := ["passport"; "phone charger"; "medications"; "comfortable shoes"];
  weather_gear := {|
    hot := ["sunscreen"; "hat"; "light clothing"; "water bottle"];
    cold := ["warm jacket"; "gloves"; "hat"; "thermal underwear"];
    rainy := ["umbrella"; "waterproof jacket"; "quick-dry clothes"]
  |}
|}.

Definition duration_extras : list string :=
  ["laundry detergent"; "extra underwear"; "backup electronics"].

(** The [if / elif / elif] of [get_packing_list]: what is appended to the
    copy of the essentials for the weather. *)
Definition weather_items (weather : string) : list string :=
  if contains "hot" (lower weather) || contains "sunny" (lower weather) then
    hot (weather_gear packing)
  else if contains "cold" (lower weather) || contains "snow" (lower weather) then
    cold (weather_gear packing)
  else if contains "rain" (lower weather) then
    rainy (weather_gear packing)
  else [].

Definition get_packing_list (destination weather : string) (duration : Z)
  : list string :=
  let base_list := essentials packing in
  let base_list := base_list ++ weather_items weather in
  let base_list :=
    if 7 <? duration then base_list ++ duration_extras else base_list in
  base_list.


(** What the duration contributes. *)
Definition extras_for (duration : Z) : list string :=
  if 7 <? duration then duration_extras else [].

(** Spec-level reading of the three weather categories: the description
    contains one of the category's keywords, case-insensitively. *)
Definition hot_keyword (weather : string) : Prop :=
  occurs_in_ci "hot" weather \/ occurs_in_ci "sunny" weather.
Definition cold_keyword (weather : string) : Prop :=
  occurs_in_ci "cold" weather \/ occurs_in_ci "snow" weather.
Definition rain_keyword (weather : string) : Prop :=
  occurs_in_ci "rain" weather.

End TravelKnowledgeHelper.

(* ===================================================================== *)
(** * weather_tool.py *)
(* ===================================================================== *)

Module WeatherTool.
Import PyStr.

(** The newline character of the Python literals. *)
Definition nl : string := String (ascii_of_nat 10) EmptyString.

(** The fields [get_current_weather] reads from the decoded response of
    [/weather]. JSON numbers are carried as the text [str()] gives them. *)
Record CurrentData := {
  name : string;                (* data["name"] *)
  sys_country : string;         (* data["sys"]["country"] *)
  main_temp : string;           (* data["main"]["temp"] *)
  weather_description : string; (* data["weather"][0]["description"] *)
  main_humidity : string;       (* data["main"]["humidity"] *)
  wind_speed : string;          (* data["wind"]["speed"] *)
  main_feels_like : string      (* data["main"]["feels_like"] *)
}.

(** One element of [data["list"]] of the decoded response of [/forecast]. *)
Record ForecastItem := {
  dt_txt : string;              (* item["dt_txt"] *)
  item_temp : string;           (* item["main"]["temp"] *)
  item_description : string     (* item["weather"][0]["description"] *)
}.

Record ForecastData := {
  city_name : string;           (* data["city"]["name"] *)
  city_country : string;        (* data["city"]["country"] *)
  list_ : list ForecastItem     (* data["list"] *)
}.

(** What the three statements [requests.get], [raise_for_status] and
    [response.json()] (and the field lookups after them) amount to: the
    message of the exception one of them raised, or the decoded fields. *)
Record Provider := {
  weather : string -> string + CurrentData;
  forecast : string -> Z -> string + ForecastData
}.

(** [f"{city},{country}" if country else city] *)
Definition location (city : string) (country : option string) : string :=
  match country with
  | Some c => if String.eqb c "" then city else city +:+ "," +:+ c
  | None => city
  end.

Definition indent : string := "            ".

Definition get_current_weather (api : Provider) (city : string)
    (country : option string) : string :=
  match weather api (location city country) with
  | inr data =>
      "Current Weather in " +:+ name data +:+ ", " +:+ sys_country data +:+ ":" +:+ nl +:+
      indent +:+ "Temperature: " +:+ main_temp data +:+ "°C (feels like "
             +:+ main_feels_like data +:+ "°C)" +:+ nl +:+
      indent +:+ "Condition: " +:+ title (weather_description data) +:+ nl +:+
      indent +:+ "Humidity: " +:+ main_humidity data +:+ "%" +:+ nl +:+
      indent +:+ "Wind Speed: " +:+ wind_speed data +:+ " m/s"
  | inl e => "Error getting weather data: " +:+ e
  end.

(** [item["dt_txt"][:10]] and [item["dt_txt"][11:16]] *)
Definition forecast_date (item : ForecastItem) : string := take 10 (dt_txt item).
Definition forecast_time (item : ForecastItem) : string := slice 11 16 (dt_txt item).

Definition date_heading (d : string) : string :=
  nl +:+ "📅 " +:+ d +:+ ":" +:+ nl.

Definition sample_line (item : ForecastItem) : string :=
  "  " +:+ forecast_time item +:+ ": " +:+ item_temp item +:+ "°C, "
       +:+ item_description item +:+ nl.

Definition forecast_title (data : ForecastData) : string :=
  "Weather Forecast for " +:+ city_name data +:+ ", " +:+ city_country data
    +:+ ":" +:+ nl +:+ nl.

(** One iteration of the [for item in data["list"]] loop, on the pair of
    the two variables it updates. *)
Definition forecast_step (st : string * option string) (item : ForecastItem)
  : string * option string :=
  let '(forecast_text, current_date) := st in
  let '(forecast_text, current_date) :=
    if bool_decide (Some (forecast_date item) = current_date)
    then (forecast_text, current_date)
    else (forecast_text +:+ date_heading (forecast_date item),
          Some (forecast_date item)) in
  (forecast_text +:+ sample_line item, current_date).

Definition get_weather_forecast (api : Provider) (city : string) (days : Z)
    (country : option string) : string :=
  match forecast api (location city country) (Z.min (days * 8) 40) with
  | inr data =>
      fst (fold_left forecast_step (list_ data) (forecast_title data, None))
  | inl e => "Error getting forecast data: " +:+ e
  end.

Definition rain_storm_alert : string :=
  "⚠️ Rain/Storm Alert: Consider indoor activities".
Definition snow_alert : string :=
  "❄️ Snow Alert: Dress warmly and allow extra travel time".
Definition high_wind_alert : string :=
  "💨 High Wind Alert: Be cautious with outdoor activities".

(** The list [alerts] as the three [if] statements leave it. *)
Definition collect_alerts (weather_info : string) : list string :=
  let alerts := [] in
  let alerts :=
    if contains "rain" (lower weather_info) || contains "storm" (lower weather_info)
    then alerts ++ [rain_storm_alert] else alerts in
  let alerts :=
    if contains "snow" (lower weather_info)
    then alerts ++ [snow_alert] else alerts in
  let alerts :=
    if contains "wind" weather_info && contains "high" (lower weather_info)
    then alerts ++ [high_wind_alert] else alerts in
  alerts.

(** The body of [get_weather_alerts] after the current weather text has
    been obtained. *)
Definition alerts_of_text (city weather_info : string) : string :=
  if contains "Error" weather_info then weather_info
  else
    let alerts := collect_alerts weather_info in
    match alerts with
    | _ :: _ => "Weather Alerts for " +:+ city +:+ ":" +:+ nl +:+ join nl alerts
    | [] => "No weather alerts for " +:+ city
              +:+ ". Conditions are favorable for travel!"
    end.

Definition get_weather_alerts (api : Provider) (city : string)
    (country : option string) : string :=
  let weather_info := get_current_weather api city country in
  alerts_of_text city weather_info.

(** Spec-level rendering of a forecast: one heading per distinct date, in
    the order the dates first occur, each followed by the lines of all
    samples of that date. *)
Fixpoint distinct_dates (ds : list string) : list string :=
  match ds with
  | [] => []
  | d :: rest => d :: filter (fun e => e <> d) (distinct_dates rest)
  end.

Definition samples_of (d : string) (items : list ForecastItem) : list ForecastItem :=
  filter (fun item => forecast_date item = d) items.

Definition date_block (items : list ForecastItem) (d : string) : string :=
  date_heading d +:+ concat (map sample_line (samples_of d items)).

Definition grouped_forecast (data : ForecastData) : string :=
  forecast_title data +:+
  concat (map (date_block (list_ data))
              (distinct_dates (map forecast_date (list_ data)))).

(** Date stamps never decrease along the samples (text order, which is
    calendar order for YYYY-MM-DD). *)
Definition non_decreasing_dates (items : list ForecastItem) : Prop :=
  forall i a b,
    items !! i = Some a -> items !! (S i) = Some b ->
    String.leb (forecast_date a) (forecast_date b) = true.


(** A provider that knows Paris and refuses every other place. *)
Definition paris_api : Provider := {|
  weather := fun q =>
    if String.eqb q "Paris,FR" then
      inr {| name := "Paris"; sys_country := "FR"; main_temp := "21.5";
             weather_description := "light rain"; main_humidity := "60";
             wind_speed := "3.1"; main_feels_like := "20.9" |}
    else inl "404 Client Error: Not Found";
  forecast := fun q cnt =>
    if String.eqb q "Paris,FR" then
      inr {| city_name := "Paris"; city_country := "FR";
             list_ := [
               {| dt_txt := "2024-06-01 09:00:00"; item_temp := "18.2";
                  item_description := "clear sky" |};
               {| dt_txt := "2024-06-01 12:00:00"; item_temp := "21";
                  item_description := "few clouds" |};
               {| dt_txt := "2024-06-02 00:00:00"; item_temp := "15.4";
                  item_description := "light rain" |} ] |}
    else inl "404 Client Error: Not Found"
|}.



(** The text the loop appends to [forecast_text] when it starts with
    [current_date] and runs over [items]. *)
Fixpoint loop_output (current_date : option string) (items : list ForecastItem)
  : string :=
  match items with
  | [] => EmptyString
  | item :: rest =>
      (if bool_decide (Some (forecast_date item) = current_date)
       then EmptyString else date_heading (forecast_date item))
      +:+ sample_line item +:+ loop_output (Some (forecast_date item)) rest
  end.

(** [items] is non-decreasing and none of its dates is before [d]. *)
Fixpoint non_decreasing_from (d : string) (items : list ForecastItem) : Prop :=
  match items with
  | [] => True
  | item :: rest =>
      String.leb d (forecast_date item) = true /\
      non_decreasing_from (forecast_date item) rest
  end.

(** The blocks of a list of samples, one per distinct date. *)
Definition date_blocks (items : list ForecastItem) : string :=
  concat (map (date_block items) (distinct_dates (map forecast_date items))).

End WeatherTool.

(* ===================================================================== *)
(** * Values, time stamps and the outside world *)
(* ===================================================================== *)

(** The values a [Dict[str, Any]] of this program holds. *)
#[warnings="-register-all"] Inductive value :=
| VNone
| VBool (b : bool)
| VInt (n : Z)
| VStr (s : string)
| VList (l : list value).

(** [d.get(k)] *)
Definition dict_get (d : gmap string value) (k : string) : value :=
  default VNone (d !! k).

Module Datetime.
Import PyStr.

(** A naive [datetime.datetime]. *)
Record datetime := {
  year : nat; month : nat; day : nat;
  hour : nat; minute : nat; second : nat; microsecond : nat
}.

Definition fields (t : datetime) : list nat :=
  [year t; month t; day t; hour t; minute t; second t; microsecond t].

(** Comparison of two naive datetimes: field by field, most significant
    first. *)
Fixpoint lex_compare (a b : list nat) : comparison :=
  match a, b with
  | [], [] => Eq
  | [], _ :: _ => Lt
  | _ :: _, [] => Gt
  | x :: a', y :: b' =>
      match Nat.compare x y with
      | Eq => lex_compare a' b'
      | c => c
      end
  end.

Definition compare (s t : datetime) : comparison :=
  lex_compare (fields s) (fields t).

(** [s <= t] and [s < t] *)
Definition leb (s t : datetime) : bool :=
  match compare s t with Gt => false | _ => true end.
Definition ltb (s t : datetime) : bool :=
  match compare s t with Lt => true | _ => false end.

(** [t.strftime('%Y%m%d_%H%M%S')] *)
Definition strftime_Ymd_HMS (t : datetime) : string :=
  zfill 4 (year t) +:+ zfill 2 (month t) +:+ zfill 2 (day t) +:+ "_" +:+
  zfill 2 (hour t) +:+ zfill 2 (minute t) +:+ zfill 2 (second t).

(** What the store keeps of a datetime: it counts milliseconds, so the
    microseconds below a millisecond are dropped when a document is
    written. *)
Definition to_milliseconds (t : datetime) : datetime := {|
  year := year t; month := month t; day := day t;
  hour := hour t; minute := minute t; second := second t;
  microsecond := (microsecond t / 1000 * 1000)%nat |}.

(** Two readings that fall within the same second. *)
Definition same_second (s t : datetime) : Prop :=
  year s = year t /\ month s = month t /\ day s = day t /\
  hour s = hour t /\ minute s = minute t /\ second s = second t.

(** The fields of a reading fit the widths of the format: a year of at most
    four digits, the other fields of at most two. *)
Definition fits_format (t : datetime) : Prop :=
  (year t < 100 * 100 /\ month t < 100 /\ day t < 100 /\
   hour t < 100 /\ minute t < 100 /\ second t < 100)%nat.

End Datetime.
Export Datetime(datetime).

(** A [bson.ObjectId], and its [str()]: 24 hexadecimal digits. *)
Definition ObjectId := N.

Definition hex_digit (n : N) : ascii :=
  if (n <? 10)%N then ascii_of_N (48 + n) else ascii_of_N (87 + n).

Fixpoint hex_fuel (fuel : nat) (n : N) (acc : string) : string :=
  match fuel with
  | O => acc
  | S fuel' => hex_fuel fuel' (n / 16)%N (String (hex_digit (n mod 16)%N) acc)
  end.

Definition str_oid (oid : ObjectId) : string := hex_fuel 24 oid EmptyString.

(** A document as the server holds it: the [_id] it was given on insertion
    and the fields the program wrote. *)
Record Stored (A : Type) := { _id : ObjectId; body : A }.
Arguments _id {A} _.
Arguments body {A} _.

(** A document as [get_trip_history] and its siblings hand it out, after
    [doc["_id"] = str(doc["_id"])]. *)
Record Listed (A : Type) := { id_str : string; fields_of : A }.
Arguments id_str {A} _.
Arguments fields_of {A} _.

Definition stringify_id {A} (d : Stored A) : Listed A :=
  {| id_str := str_oid (_id d); fields_of := body d |}.

(** The documents of the three collections. *)
Record PreferencesDoc := {
  pref_user_id : string;
  pref_preferences : gmap string value;
  pref_created_at : datetime;
  pref_updated_at : datetime
}.

Record TripDoc := {
  trip_user_id : string;
  trip_id : string;
  destination : value;
  start_date : value;
  end_date : value;
  preferences : value;
  budget : value;
  itinerary : value;
  created_at : datetime
}.

Record MemoryDoc := {
  mem_user_id : string;
  agent_type : string;
  conversation : string;
  response : string;
  timestamp : datetime
}.

(** A document as the store holds it once written: its datetimes are cut
    to the millisecond, the other fields are kept as they are. *)
Definition stored_preferences (d : PreferencesDoc) : PreferencesDoc := {|
  pref_user_id := pref_user_id d;
  pref_preferences := pref_preferences d;
  pref_created_at := Datetime.to_milliseconds (pref_created_at d);
  pref_updated_at := Datetime.to_milliseconds (pref_updated_at d) |}.

Definition stored_trip (d : TripDoc) : TripDoc := {|
  trip_user_id := trip_user_id d;
  trip_id := trip_id d;
  destination := destination d;
  start_date := start_date d;
  end_date := end_date d;
  preferences := preferences d;
  budget := budget d;
  itinerary := itinerary d;
  created_at := Datetime.to_milliseconds (created_at d) |}.

Definition stored_conversation (d : MemoryDoc) : MemoryDoc := {|
  mem_user_id := mem_user_id d;
  agent_type := agent_type d;
  conversation := conversation d;
  response := response d;
  timestamp := Datetime.to_milliseconds (timestamp d) |}.

(** The world outside the process: the three collections of the
    [travel_scheduler] database in insertion order, the next identifier the
    driver will generate, whether the server is out of reach (and the
    message of the resulting exception), the collection names it reports,
    the console, and the prompts sent to the language model. *)
Record World := {
  user_preferences : list (Stored PreferencesDoc);
  trip_history : list (Stored TripDoc);
  agent_memory : list (Stored MemoryDoc);
  next_oid : ObjectId;
  fault : option string;
  collection_names : list string;
  stdout : list string;
  agent_calls : list (string * string)
}.

Definition empty_world : World := {|
  user_preferences := []; trip_history := []; agent_memory := [];
  next_oid := 0%N; fault := None;
  collection_names := ["user_preferences"; "trip_history"; "agent_memory"];
  stdout := []; agent_calls := []
|}.

Definition set_user_preferences (l : list (Stored PreferencesDoc)) (w : World) : World :=
  {| user_preferences := l; trip_history := trip_history w;
     agent_memory := agent_memory w; next_oid := next_oid w; fault := fault w;
     collection_names := collection_names w;
     stdout := stdout w; agent_calls := agent_calls w |}.

Definition set_trip_history (l : list (Stored TripDoc)) (w : World) : World :=
  {| user_preferences := user_preferences w; trip_history := l;
     agent_memory := agent_memory w; next_oid := next_oid w; fault := fault w;
     collection_names := collection_names w;
     stdout := stdout w; agent_calls := agent_calls w |}.

Definition set_agent_memory (l : list (Stored MemoryDoc)) (w : World) : World :=
  {| user_preferences := user_preferences w; trip_history := trip_history w;
     agent_memory := l; next_oid := next_oid w; fault := fault w;
     collection_names := collection_names w;
     stdout := stdout w; agent_calls := agent_calls w |}.

Definition set_next_oid (n : ObjectId) (w : World) : World :=
  {| user_preferences := user_preferences w; trip_history := trip_history w;
     agent_memory := agent_memory w; next_oid := n; fault := fault w;
     collection_names := collection_names w;
     stdout := stdout w; agent_calls := agent_calls w |}.

Definition set_fault (f : option string) (w : World) : World :=
  {| user_preferences := user_preferences w; trip_history := trip_history w;
     agent_memory := agent_memory w; next_oid := next_oid w; fault := f;
     collection_names := collection_names w;
     stdout := stdout w; agent_calls := agent_calls w |}.

Definition set_stdout (out : list string) (w : World) : World :=
  {| user_preferences := user_preferences w; trip_history := trip_history w;
     agent_memory := agent_memory w; next_oid := next_oid w; fault := fault w;
     collection_names := collection_names w;
     stdout := out; agent_calls := agent_calls w |}.

Definition set_agent_calls (calls : list (string * string)) (w : World) : World :=
  {| user_preferences := user_preferences w; trip_history := trip_history w;
     agent_memory := agent_memory w; next_oid := next_oid w; fault := fault w;
     collection_names := collection_names w;
     stdout := stdout w; agent_calls := calls |}.

(** ** Computations that may raise *)

Inductive Outcome (A : Type) :=
| Return (a : A)
| Raise (e : string).
Arguments Return {A} _.
Arguments Raise {A} _.

Definition M (A : Type) : Type := World -> Outcome A * World.

Definition ret {A} (a : A) : M A := fun w => (Return a, w).

Definition raise {A} (e : string) : M A := fun w => (Raise e, w).

Definition bind {A B} (m : M A) (k : A -> M B) : M B :=
  fun w =>
    match m w with
    | (Return a, w') => k a w'
    | (Raise e, w') => (Raise e, w')
    end.

(** [try: body except Exception as e: handler(e)] *)
Definition try_except {A} (body : M A) (handler : string -> M A) : M A :=
  fun w =>
    match body w with
    | (Return a, w') => (Return a, w')
    | (Raise e, w') => handler e w'
    end.

(** [print(line)] *)
Definition print (line : string) : M unit :=
  fun w => (Return tt, set_stdout (stdout w ++ [line]) w).

Notation "'let*' x ':=' m 'in' k" := (bind m (fun x => k))
  (at level 10, x name, m at level 100, k at level 200).
Notation "'run' m 'then' k" := (bind m (fun _ => k))
  (at level 10, m at level 100, k at level 200).

(* ===================================================================== *)
(** * The document store, as the driver presents it *)
(* ===================================================================== *)

(** The model keeps what the program relies on: documents are kept in
    insertion order with their datetimes cut to the millisecond, a filter
    selects the documents whose fields match, a sort orders them on one
    field and keeps documents with equal keys in insertion order, a limit
    cuts the result. [insert_one] gives the document its [_id] in the
    driver, before the server is asked; an upsert that inserts gets the
    [_id] from the server. *)
Module Mongo.

(** A collection of the database: where its documents live in the world,
    and what is kept of a document written to it. *)
Record Collection (A : Type) := {
  read : World -> list (Stored A);
  write : list (Stored A) -> World -> World;
  stored : A -> A
}.
Arguments read {A} _ _.
Arguments write {A} _ _ _.
Arguments stored {A} _ _.

Definition user_preferences_c : Collection PreferencesDoc :=
  {| read := user_preferences; write := set_user_preferences;
     stored := stored_preferences |}.
Definition trip_history_c : Collection TripDoc :=
  {| read := trip_history; write := set_trip_history; stored := stored_trip |}.
Definition agent_memory_c : Collection MemoryDoc :=
  {| read := agent_memory; write := set_agent_memory;
     stored := stored_conversation |}.

(** Every request first has to reach the server. *)
Definition request : M unit :=
  fun w =>
    match fault w with
    | Some e => (Raise e, w)
    | None => (Return tt, w)
    end.

(** A document without [_id] is given a fresh [ObjectId]. *)
Definition fresh_oid : M ObjectId :=
  fun w => (Return (next_oid w), set_next_oid (next_oid w + 1)%N w).

(** [collection.insert_one(document)]; the result is [inserted_id]. The
    driver draws the [_id] first and then sends the document. *)
Definition insert_one {A} (c : Collection A) (document : A) : M ObjectId :=
  let* oid := fresh_oid in
  run request then
  fun w =>
    (Return oid,
     write c (read c w ++ [{| _id := oid; body := stored c document |}]) w).

(** The first document matching the filter is replaced, keeping its
    [_id]; [None] when no document matches. *)
Fixpoint replace_first {A} (matches : A -> bool) (document : A)
    (docs : list (Stored A)) : option (list (Stored A)) :=
  match docs with
  | [] => None
  | d :: rest =>
      if matches (body d) then Some ({| _id := _id d; body := document |} :: rest)
      else option_map (cons d) (replace_first matches document rest)
  end.

(** [collection.replace_one(filter, document, upsert=True)]; when no
    document matches, the server inserts the document under an [_id] of its
    own making. *)
Definition replace_one_upsert {A} (c : Collection A) (matches : A -> bool)
    (document : A) : M unit :=
  run request then
  fun w =>
    match replace_first matches (stored c document) (read c w) with
    | Some docs => (Return tt, write c docs w)
    | None =>
        (let* oid := fresh_oid in
         fun w' =>
           (Return tt,
            write c (read c w' ++ [{| _id := oid; body := stored c document |}]) w')) w
    end.

(** [collection.find_one(filter)] *)
Definition find_one {A} (c : Collection A) (matches : A -> bool)
  : M (option (Stored A)) :=
  run request then
  fun w => (Return (head (List.filter (fun d => matches (body d)) (read c w))), w).

(** [cursor.sort(key, -1)]: descending on a datetime field; documents
    with equal keys keep their relative order. *)
Fixpoint insert_desc {A} (key : A -> datetime) (d : A) (sorted : list A) : list A :=
  match sorted with
  | [] => [d]
  | e :: rest =>
      if Datetime.leb (key e) (key d) then d :: e :: rest
      else e :: insert_desc key d rest
  end.

Fixpoint sort_desc {A} (key : A -> datetime) (docs : list A) : list A :=
  match docs with
  | [] => []
  | d :: rest => insert_desc key d (sort_desc key rest)
  end.

(** [a] may stand before [b] in a descending order on [key]. *)
Definition descending {A} (key : A -> datetime) : A -> A -> Prop :=
  fun a b => Datetime.leb (key b) (key a) = true.

(** [cursor.limit(n)]: [0] means no limit, a negative [n] counts as
    its absolute value. *)
Definition limit_docs {A} (n : Z) (docs : list A) : list A :=
  if n =? 0 then docs else firstn (Z.abs_nat n) docs.

(** [list(collection.find(filter).sort(key, -1).limit(n))] *)
Definition find_sort_limit {A} (c : Collection A) (matches : A -> bool)
    (key : A -> datetime) (n : Z) : M (list (Stored A)) :=
  run request then
  fun w =>
    (Return (limit_docs n
               (sort_desc (fun d => key (body d))
                  (List.filter (fun d => matches (body d)) (read c w)))), w).

(** [list(collection.find(filter).limit(n))], in insertion order. *)
Definition find_limit {A} (c : Collection A) (matches : A -> bool) (n : Z)
  : M (list (Stored A)) :=
  run request then
  fun w =>
    (Return (limit_docs n (List.filter (fun d => matches (body d)) (read c w))), w).

(** [collection.count_documents({})] *)
Definition count_documents {A} (c : Collection A) : M Z :=
  run request then
  fun w => (Return (Z.of_nat (length (read c w))), w).

(** [db.list_collection_names()] *)
Definition list_collection_names : M (list string) :=
  run request then
  fun w => (Return (collection_names w), w).

End Mongo.

(* ===================================================================== *)
(** * database.py *)
(* ===================================================================== *)

Module TravelDatabase.
Import PyStr Mongo.

Definition has_user_id {A} (get : A -> string) (user_id : string) (d : A) : bool :=
  String.eqb (get d) user_id.

(** [save_user_preferences]; [now_created] and [now_updated] are the two
    clock readings of the document literal. *)
Definition save_user_preferences (now_created now_updated : datetime)
    (user_id : string) (preferences : gmap string value) : M bool :=
  try_except
    (let document := {|
       pref_user_id := user_id;
       pref_preferences := preferences;
       pref_created_at := now_created;
       pref_updated_at := now_updated |} in
     run (replace_one_upsert user_preferences_c
            (has_user_id pref_user_id user_id) document) then
     run (print ("✅ Saved preferences for user: " +:+ user_id)) then
     ret true)
    (fun e =>
       run (print ("❌ Error saving preferences: " +:+ e)) then
       ret false).

Definition get_user_preferences (user_id : string)
  : M (option (gmap string value)) :=
  try_except
    (let* result := find_one user_preferences_c
                      (has_user_id pref_user_id user_id) in
     match result with
     | Some d => ret (Some (pref_preferences (body d)))
     | None => ret None
     end)
    (fun e =>
       run (print ("❌ Error getting preferences: " +:+ e)) then
       ret None).

(** The document literal of [save_trip_history]; [now_id] is the clock
    reading formatted into [trip_id], [now_created] the one stored as
    [created_at]. *)
Definition trip_document (now_id now_created : datetime) (user_id : string)
    (trip_data : gmap string value) : TripDoc := {|
  trip_user_id := user_id;
  trip_id := user_id +:+ "_" +:+ Datetime.strftime_Ymd_HMS now_id;
  destination := dict_get trip_data "destination";
  start_date := dict_get trip_data "start_date";
  end_date := dict_get trip_data "end_date";
  preferences := dict_get trip_data "preferences";
  budget := dict_get trip_data "budget";
  itinerary := dict_get trip_data "itinerary";
  created_at := now_created |}.

Definition save_trip_history (now_id now_created : datetime)
    (user_id : string) (trip_data : gmap string value) : M bool :=
  try_except
    (let document := trip_document now_id now_created user_id trip_data in
     let* inserted_id := insert_one trip_history_c document in
     run (print ("✅ Saved trip history: " +:+ str_oid inserted_id)) then
     ret true)
    (fun e =>
       run (print ("❌ Error saving trip history: " +:+ e)) then
       ret false).

Definition get_trip_history (user_id : string) (limit : Z)
  : M (list (Listed TripDoc)) :=
  try_except
    (let* trips := find_sort_limit trip_history_c
                     (has_user_id trip_user_id user_id) created_at limit in
     ret (map stringify_id trips))
    (fun e =>
       run (print ("❌ Error getting trip history: " +:+ e)) then
       ret []).

Definition save_agent_memory (now : datetime) (user_id agent_type : string)
    (conversation response : string) : M bool :=
  try_except
    (let document := {|
       mem_user_id := user_id;
       agent_type := agent_type;
       conversation := conversation;
       response := response;
       timestamp := now |} in
     let* result := insert_one agent_memory_c document in
     ret true)
    (fun e =>
       run (print ("❌ Error saving agent memory: " +:+ e)) then
       ret false).

(** The query of [get_agent_memory]: [agent_type] is added to it when it
    is neither [None] nor the empty string. *)
Definition memory_query (user_id : string) (agent_type_filter : option string)
    (d : MemoryDoc) : bool :=
  match agent_type_filter with
  | Some a =>
      if String.eqb a "" then has_user_id mem_user_id user_id d
      else has_user_id mem_user_id user_id d && String.eqb (agent_type d) a
  | None => has_user_id mem_user_id user_id d
  end.

Definition get_agent_memory (user_id : string)
    (agent_type_filter : option string) (limit : Z)
  : M (list (Listed MemoryDoc)) :=
  try_except
    (let* conversations := find_sort_limit agent_memory_c
                             (memory_query user_id agent_type_filter)
                             timestamp limit in
     ret (map stringify_id conversations))
    (fun e =>
       run (print ("❌ Error getting agent memory: " +:+ e)) then
       ret []).

Definition get_database_stats : M (gmap string value) :=
  try_except
    (let* total_users := count_documents user_preferences_c in
     let* total_trips := count_documents trip_history_c in
     let* total_conversations := count_documents agent_memory_c in
     let* collections := list_collection_names in
     ret (<["total_users" := VInt total_users]>
          (<["total_trips" := VInt total_trips]>
          (<["total_conversations" := VInt total_conversations]>
          (<["collections" := VList (map VStr collections)]>
          (<["connection_status" := VStr "Connected"]> ∅))))))
    (fun e =>
       ret (<["error" := VStr e]>
            (<["connection_status" := VStr "Disconnected"]> ∅))).

Section Search.
(** The server's regular-expression engine with option [i]: a pattern
    compiles to a search predicate, or is refused. *)
Variable regex_i : string -> option (string -> bool).

Definition destination_filter (query : string) : M (TripDoc -> bool) :=
  match regex_i query with
  | Some found =>
      ret (fun d => match destination d with
                    | VStr s => found s
                    | _ => false
                    end)
  | None => raise "Regular expression is invalid"
  end.

Definition search_destinations (query : string) (limit : Z)
  : M (list (Listed TripDoc)) :=
  try_except
    (let* results :=
       (let* matches := (run request then destination_filter query) in
        find_limit trip_history_c matches limit) in
     ret (map stringify_id results))
    (fun e =>
       run (print ("❌ Error searching destinations: " +:+ e)) then
       ret []).
End Search.

(** One thing that can happen to the world between two observations: a
    call of a method of [TravelDatabase], the server going away or coming
    back, or output and model traffic that leave the store alone. *)
Inductive step : World -> World -> Prop :=
| step_save_user_preferences t1 t2 user_id prefs w :
    step w (snd (save_user_preferences t1 t2 user_id prefs w))
| step_get_user_preferences user_id w :
    step w (snd (get_user_preferences user_id w))
| step_save_trip_history t1 t2 user_id trip_data w :
    step w (snd (save_trip_history t1 t2 user_id trip_data w))
| step_get_trip_history user_id limit w :
    step w (snd (get_trip_history user_id limit w))
| step_save_agent_memory t user_id a c r w :
    step w (snd (save_agent_memory t user_id a c r w))
| step_get_agent_memory user_id a limit w :
    step w (snd (get_agent_memory user_id a limit w))
| step_get_database_stats w :
    step w (snd (get_database_stats w))
| step_search_destinations regex_i query limit w :
    step w (snd (search_destinations regex_i query limit w))
| step_fault f w :
    step w (set_fault f w)
| step_stdout out w :
    step w (set_stdout out w)
| step_agent_calls calls w :
    step w (set_agent_calls calls w).

(** The worlds the program can be in, starting from an empty database. *)
Inductive reachable : World -> Prop :=
| reachable_empty : reachable empty_world
| reachable_step w w' : reachable w -> step w w' -> reachable w'.

(** The call hands a value back to its caller instead of raising. *)
Definition returns {A} (m : M A) (w : World) : Prop :=
  exists a, fst (m w) = Return a.

(** Newest first: no trip is created before one listed after it. *)
Definition newest_first (trips : list (Listed TripDoc)) : Prop :=
  forall i j a b,
    (i < j)%nat -> trips !! i = Some a -> trips !! j = Some b ->
    Datetime.leb (created_at (fields_of b)) (created_at (fields_of a)) = true.

(** Appending a trip and listing one trip of the user right after gives
    the record just written and nothing else. *)
Definition append_then_list_one (w : World) (now_id now_created : datetime)
    (user_id : string) (trip_data : gmap string value) : Prop :=
  let saved := save_trip_history now_id now_created user_id trip_data w in
  fst saved = Return true /\
  fst (get_trip_history user_id 1 (snd saved)) =
    Return [ {| id_str := str_oid (next_oid w);
                fields_of :=
                  stored_trip (trip_document now_id now_created user_id trip_data) |} ].

(** Every trip already stored for the user carries a [created_at] strictly
    before the reading [now] as the store will keep it, cut to the
    millisecond. *)
Definition clock_ahead_of_trips (w : World) (user_id : string) (now : datetime)
  : Prop :=
  forall d, d ∈ trip_history w -> trip_user_id (body d) = user_id ->
            Datetime.ltb (created_at (body d)) (Datetime.to_milliseconds now) = true.

(** The stored trips that carry a given [trip_id]. *)
Definition trips_with_id (tid : string) (w : World) : list (Stored TripDoc) :=
  List.filter (fun d => String.eqb (trip_id (body d)) tid) (trip_history w).

(** "Last write wins": of two trips saved one after the other, only the
    second is stored under its [trip_id]. *)
Definition last_write_wins (w : World) (user_id : string)
    (now_id1 now_created1 : datetime) (trip_data1 : gmap string value)
    (now_id2 now_created2 : datetime) (trip_data2 : gmap string value) : Prop :=
  let w1 := snd (save_trip_history now_id1 now_created1 user_id trip_data1 w) in
  let w2 := snd (save_trip_history now_id2 now_created2 user_id trip_data2 w1) in
  exists oid,
    trips_with_id (trip_id (trip_document now_id2 now_created2 user_id trip_data2)) w2 =
    [ {| _id := oid;
         body := stored_trip (trip_document now_id2 now_created2 user_id trip_data2) |} ].

(** The preference records of a user. *)
Definition preferences_of (user_id : string) (w : World)
  : list (Stored PreferencesDoc) :=
  List.filter (fun d => has_user_id pref_user_id user_id (body d))
              (user_preferences w).

(** No user has two preference records. *)
Definition one_record_per_user (w : World) : Prop :=
  forall user_id, (length (preferences_of user_id w) <= 1)%nat.

(** Clock readings and trip data for the examples. *)
Definition noon (s us : nat) : datetime := {|
  Datetime.year := 2025; Datetime.month := 6; Datetime.day := 1;
  Datetime.hour := 12; Datetime.minute := 0;
  Datetime.second := s; Datetime.microsecond := us |}.

Definition paris_trip : gmap string value :=
  <["destination" := VStr "Paris, France"]>
  (<["start_date" := VStr "2025-06-01"]>
  (<["end_date" := VStr "2025-06-07"]>
  (<["preferences" := VStr "museums"]>
  (<["budget" := VStr "moderate"]>
  (<["itinerary" := VStr "Day 1: Louvre"]> ∅))))).

Definition rome_trip : gmap string value :=
  <["destination" := VStr "Rome, Italy"]>
  (<["budget" := VStr "luxury"]>
  (<["itinerary" := VStr "Day 1: Forum"]> ∅)).

(** What [get_database_stats] answers when the store cannot be asked. *)
Definition disconnected_stats (e : string) : gmap string value :=
  <["error" := VStr e]> (<["connection_status" := VStr "Disconnected"]> ∅).

(** A regular-expression engine that refuses every pattern. *)
Definition no_regex : string -> option (string -> bool) := fun _ => None.

(** A store that already holds a trip of user "u", created at 12:00:05
    and 10 microseconds. *)
Definition late_world : World :=
  snd (save_trip_history (noon 5 0) (noon 5 10) "u" paris_trip empty_world).

(** A store that holds four conversations: three of user "u", two of them
    with the advisor, and one of user "v". *)
Definition conversation_world : World :=
  snd (save_agent_memory (noon 4 0) "v" "advisor" "Where next?" "Lisbon"
  (snd (save_agent_memory (noon 3 0) "u" "itinerary" "Plan Rome" "Day 1: Forum"
  (snd (save_agent_memory (noon 2 5000) "u" "advisor" "Beach or city?" "Beach"
  (snd (save_agent_memory (noon 1 0) "u" "advisor" "Where next?" "Oslo"
          empty_world))))))).

(** The document literal of [save_user_preferences]. *)
Definition preferences_document (now_created now_updated : datetime)
    (user_id : string) (preferences : gmap string value) : PreferencesDoc := {|
  pref_user_id := user_id;
  pref_preferences := preferences;
  pref_created_at := now_created;
  pref_updated_at := now_updated |}.

(** The store after [replace_one(..., upsert=True)] on the preferences. *)
Definition upserted (document : PreferencesDoc) (w : World) : World :=
  match replace_first (has_user_id pref_user_id (pref_user_id document)) document
                      (user_preferences w) with
  | Some docs => set_user_preferences docs w
  | None =>
      set_user_preferences
        (user_preferences w ++ [{| _id := next_oid w; body := document |}])
        (set_next_oid (next_oid w + 1)%N w)
  end.

End TravelDatabase.

(* ===================================================================== *)
(** * scheduler.py *)
(* ===================================================================== *)

Module TravelScheduler.
Import TravelDatabase.

(** A [phi.agent.Agent]: its name and what the bound model answers to a
    prompt (or the exception the call ends in). *)
Record Agent := {
  agent_name : string;
  respond : string -> Outcome string
}.

(** [agent.run(prompt).content] *)
Definition agent_run (agent : Agent) (prompt : string) : M string :=
  fun w =>
    (respond agent prompt,
     set_agent_calls (agent_calls w ++ [(agent_name agent, prompt)]) w).

(** The handle on the store a scheduler holds when the connection
    succeeded. *)
Record Database := { connection_string : string }.

Record TravelScheduler := {
  user_id : string;
  itinerary_agent : Agent;
  advisor_agent : Agent;
  memory_agent : Agent;
  db : option Database
}.

(** The [if / elif / else] of [chat_with_agent]. *)
Definition select_agent (self : TravelScheduler) (agent_type : string) : Agent :=
  if String.eqb agent_type "itinerary" then itinerary_agent self
  else if String.eqb agent_type "memory" then memory_agent self
  else advisor_agent self.

(** [chat_with_agent]; [now] is the clock reading of the memory record. *)
Definition chat_with_agent (self : TravelScheduler) (now : datetime)
    (message agent_type : string) : M string :=
  let agent := select_agent self agent_type in
  let* content := agent_run agent message in
  run (match db self with
       | Some _ =>
           run (save_agent_memory now (user_id self) agent_type message content)
           then ret tt
       | None => ret tt
       end) then
  ret content.

(** The chat was handled by [agent]: the prompt sent to the model is the
    message, under the name of [agent], and the caller gets what [agent]
    answered (or the exception its call ended in). *)
Definition dispatched_to (agent : Agent) (self : TravelScheduler) (now : datetime)
    (message agent_type : string) (w : World) : Prop :=
  let result := chat_with_agent self now message agent_type w in
  fst result = respond agent message /\
  agent_calls (snd result) = agent_calls w ++ [(agent_name agent, message)].

(** An agent that answers with its name and the prompt. *)
Definition echo_agent (name : string) : Agent :=
  {| agent_name := name; respond := fun prompt => Return (name +:+ ": " +:+ prompt) |}.

Definition echo_scheduler : TravelScheduler := {|
  user_id := "default_user";
  itinerary_agent := echo_agent "TravelItineraryPlanner";
  advisor_agent := echo_agent "TravelAdvisor";
  memory_agent := echo_agent "TravelMemoryManager";
  db := Some {| connection_string := "mongodb://localhost:27017" |}
|}.

(** The f-string [prompt] of [plan_complete_trip]. *)
Definition plan_complete_trip_prompt (destination start_date end_date preferences budget : string) : string :=
  WeatherTool.nl +:+ "        Plan a comprehensive travel itinerary with these details:" +:+
  WeatherTool.nl +:+ "        " +:+
  WeatherTool.nl +:+ "        🏙️ **Destination:** " +:+ destination +:+
  WeatherTool.nl +:+ "        📅 **Travel Dates:** " +:+ start_date +:+ " to " +:+ end_date +:+
  WeatherTool.nl +:+ "        ❤️ **Preferences:** " +:+ preferences +:+
  WeatherTool.nl +:+ "        💰 **Budget:** " +:+ budget +:+
  WeatherTool.nl +:+ "        " +:+
  WeatherTool.nl +:+ "        Please use your weather tools to check current conditions and forecast." +:+
  WeatherTool.nl +:+ "        Create a detailed plan that includes:" +:+
  WeatherTool.nl +:+ "        " +:+
  WeatherTool.nl +:+ "        1. **Day-by-day itinerary** with specific activities" +:+
  WeatherTool.nl +:+ "        2. **Weather-appropriate suggestions** using current data" +:+
  WeatherTool.nl +:+ "        3. **Restaurant and dining recommendations**" +:+
  WeatherTool.nl +:+ "        4. **Transportation guide**" +:+
  WeatherTool.nl +:+ "        5. **Accommodation suggestions**" +:+
  WeatherTool.nl +:+ "        6. **Budget breakdown**" +:+
  WeatherTool.nl +:+ "        7. **Cultural tips and local customs**" +:+
  WeatherTool.nl +:+ "        8. **Emergency information**" +:+
  WeatherTool.nl +:+ "        " +:+
  WeatherTool.nl +:+ "        Remember this conversation for future trip planning assistance." +:+
  WeatherTool.nl +:+ "        ".

(** The f-string [prompt] of [get_destination_recommendations]. *)
Definition get_destination_recommendations_prompt (preferences season budget duration : string) : string :=
  WeatherTool.nl +:+ "        Based on my travel profile and preferences, recommend the best destinations:" +:+
  WeatherTool.nl +:+ "        " +:+
  WeatherTool.nl +:+ "        🎯 **Preferences:** " +:+ preferences +:+
  WeatherTool.nl +:+ "        🌸 **Season:** " +:+ season +:+
  WeatherTool.nl +:+ "        💰 **Budget:** " +:+ budget +:+
  WeatherTool.nl +:+ "        ⏰ **Duration:** " +:+ duration +:+
  WeatherTool.nl +:+ "        " +:+
  WeatherTool.nl +:+ "        Please:" +:+
  WeatherTool.nl +:+ "        1. Check weather conditions for potential destinations" +:+
  WeatherTool.nl +:+ "        2. Consider my past travel history if any" +:+
  WeatherTool.nl +:+ "        3. Provide 5 detailed destination recommendations" +:+
  WeatherTool.nl +:+ "        4. Include budget estimates and best timing" +:+
  WeatherTool.nl +:+ "        5. Explain why each destination fits my preferences" +:+
  WeatherTool.nl +:+ "        " +:+
  WeatherTool.nl +:+ "        Remember my preferences for future recommendations." +:+
  WeatherTool.nl +:+ "        ".

(** The f-string [prompt] of [get_travel_tips]. *)
Definition get_travel_tips_prompt (destination travel_style : string) : string :=
  WeatherTool.nl +:+ "        Provide expert travel tips for " +:+ destination +:+ ":" +:+
  WeatherTool.nl +:+ "        " +:+
  WeatherTool.nl +:+ "        ✈️ **Travel Style:** " +:+ travel_style +:+
  WeatherTool.nl +:+ "        " +:+
  WeatherTool.nl +:+ "        Please check current weather and provide tips on:" +:+
  WeatherTool.nl +:+ "        " +:+
  WeatherTool.nl +:+ "        1. **Weather-appropriate packing list**" +:+
  WeatherTool.nl +:+ "        2. **Cultural etiquette and customs**" +:+
  WeatherTool.nl +:+ "        3. **Safety and health precautions**" +:+
  WeatherTool.nl +:+ "        4. **Money and payment methods**" +:+
  WeatherTool.nl +:+ "        5. **Local transportation tips**" +:+
  WeatherTool.nl +:+ "        6. **Communication and language**" +:+
  WeatherTool.nl +:+ "        7. **Hidden gems and local secrets**" +:+
  WeatherTool.nl +:+ "        8. **Common tourist mistakes to avoid**" +:+
  WeatherTool.nl +:+ "        9. **Emergency contacts and information**" +:+
  WeatherTool.nl +:+ "        " +:+
  WeatherTool.nl +:+ "        Use your weather tools to provide current conditions and packing advice." +:+
  WeatherTool.nl +:+ "        Remember my travel style preferences." +:+
  WeatherTool.nl +:+ "        ".

(** The f-string [prompt] of [optimize_itinerary]. *)
Definition optimize_itinerary_prompt (current_itinerary feedback : string) : string :=
  WeatherTool.nl +:+ "        Review and optimize this travel itinerary:" +:+
  WeatherTool.nl +:+ "        " +:+
  WeatherTool.nl +:+ "        ## Current Itinerary:" +:+
  WeatherTool.nl +:+ "        " +:+ current_itinerary +:+
  WeatherTool.nl +:+ "        " +:+
  WeatherTool.nl +:+ "        ## Feedback/Changes Needed:" +:+
  WeatherTool.nl +:+ "        " +:+ feedback +:+
  WeatherTool.nl +:+ "        " +:+
  WeatherTool.nl +:+ "        Please:" +:+
  WeatherTool.nl +:+ "        1. Check current weather conditions for the destination" +:+
  WeatherTool.nl +:+ "        2. Optimize the schedule for better flow and efficiency" +:+
  WeatherTool.nl +:+ "        3. Suggest cost optimizations" +:+
  WeatherTool.nl +:+ "        4. Provide weather backup plans" +:+
  WeatherTool.nl +:+ "        5. Improve transportation and logistics" +:+
  WeatherTool.nl +:+ "        6. Consider my past preferences and feedback" +:+
  WeatherTool.nl +:+ "        " +:+
  WeatherTool.nl +:+ "        Remember this optimization for future planning." +:+
  WeatherTool.nl +:+ "        ".

(** [if self.db: ...]: the writes of an operation, skipped without a
    store; what they return is dropped. *)
Definition when_connected (self : TravelScheduler) (writes : M unit) : M unit :=
  match db self with
  | Some _ => writes
  | None => ret tt
  end.

(** [plan_complete_trip]; [now_id] and [now_created] are the two clock
    readings of [save_trip_history], [now_memory] the one of
    [save_agent_memory]. *)
Definition plan_complete_trip (self : TravelScheduler)
    (now_id now_created now_memory : datetime)
    (destination start_date end_date preferences budget : string) : M string :=
  let prompt :=
    plan_complete_trip_prompt destination start_date end_date preferences budget in
  let* content := agent_run (itinerary_agent self) prompt in
  run (when_connected self
         (let trip_data : gmap string value :=
            <["destination" := VStr destination]>
            (<["start_date" := VStr start_date]>
            (<["end_date" := VStr end_date]>
            (<["preferences" := VStr preferences]>
            (<["budget" := VStr budget]>
            (<["itinerary" := VStr content]> ∅))))) in
          run (save_trip_history now_id now_created (user_id self) trip_data) then
          run (save_agent_memory now_memory (user_id self) "itinerary" prompt content) then
          ret tt)) then
  ret content.

(** [get_destination_recommendations]; [now_created] and [now_updated] are
    the clock readings of [save_user_preferences], [now_memory] the one of
    [save_agent_memory]. *)
Definition get_destination_recommendations (self : TravelScheduler)
    (now_created now_updated now_memory : datetime)
    (preferences season budget duration : string) : M string :=
  let prompt :=
    get_destination_recommendations_prompt preferences season budget duration in
  let* content := agent_run (advisor_agent self) prompt in
  run (when_connected self
         (let user_prefs : gmap string value :=
            <["preferences" := VStr preferences]>
            (<["season" := VStr season]>
            (<["budget" := VStr budget]>
            (<["duration" := VStr duration]> ∅))) in
          run (save_user_preferences now_created now_updated (user_id self) user_prefs) then
          run (save_agent_memory now_memory (user_id self) "advisor" prompt content) then
          ret tt)) then
  ret content.

Definition get_travel_tips (self : TravelScheduler) (now_memory : datetime)
    (destination travel_style : string) : M string :=
  let prompt := get_travel_tips_prompt destination travel_style in
  let* content := agent_run (advisor_agent self) prompt in
  run (when_connected self
         (run (save_agent_memory now_memory (user_id self) "advisor" prompt content) then
          ret tt)) then
  ret content.

Definition optimize_itinerary (self : TravelScheduler) (now_memory : datetime)
    (current_itinerary feedback : string) : M string :=
  let prompt := optimize_itinerary_prompt current_itinerary feedback in
  let* content := agent_run (itinerary_agent self) prompt in
  run (when_connected self
         (run (save_agent_memory now_memory (user_id self) "itinerary" prompt content) then
          ret tt)) then
  ret content.

(** The trip record [plan_complete_trip] leaves in the store for an answer
    [content]. *)
Definition planned_trip (self : TravelScheduler) (now_id now_created : datetime)
    (place first_day last_day interests money content : string) : TripDoc := {|
  trip_user_id := user_id self;
  trip_id := user_id self +:+ "_" +:+ Datetime.strftime_Ymd_HMS now_id;
  destination := VStr place;
  start_date := VStr first_day;
  end_date := VStr last_day;
  preferences := VStr interests;
  budget := VStr money;
  itinerary := VStr content;
  created_at := Datetime.to_milliseconds now_created |}.

(** The mapping [get_destination_recommendations] stores as preferences. *)
Definition recommendation_preferences (preferences season budget duration : string)
  : gmap string value :=
  <["preferences" := VStr preferences]>
  (<["season" := VStr season]>
  (<["budget" := VStr budget]>
  (<["duration" := VStr duration]> ∅))).

(** A store that already holds a trip of the scheduler's user, created at
    12:00:05 and 10 microseconds. *)
Definition returning_world : World :=
  snd (save_trip_history (noon 5 0) (noon 5 10) "default_user" rome_trip empty_world).

(** The parts of the world that hold stored data. *)
Definition same_store (w w' : World) : Prop :=
  user_preferences w' = user_preferences w /\
  trip_history w' = trip_history w /\
  agent_memory w' = agent_memory w.

End TravelScheduler.

(* ===================================================================== *)
(** * config.py *)
(* ===================================================================== *)

Module Config.
Import PyStr.

(** What the process sees of its environment once [load_dotenv()] has run:
    whether the file [.env] exists, and what [os.getenv] gives for the two
    keys. Keys are ASCII, so [len] is the number of characters. *)
Record Environment := {
  dotenv_file_exists : bool;
  GEMINI_API_KEY : option string;
  OPENWEATHER_API_KEY : option string
}.

(** [if key:] on the result of [os.getenv]: set and not empty. *)
Definition if_set (key : option string) : option string :=
  match key with
  | Some (String c rest) => Some (String c rest)
  | _ => None
  end.

(** [s * n] *)
Fixpoint repeat_string (s : string) (n : nat) : string :=
  match n with
  | O => EmptyString
  | S n' => s +:+ repeat_string s n'
  end.

Definition check_env_configuration (env : Environment) : M bool :=
  run (print "🔍 Checking Environment Configuration...") then
  run (print (repeat_string "-" 40)) then
  if dotenv_file_exists env then
    run (print "✅ .env file found") then
    match if_set (GEMINI_API_KEY env) with
    | Some gemini_key =>
        run (print ("✅ GEMINI_API_KEY loaded (length: "
                    +:+ str_nat (String.length gemini_key) +:+ ")")) then
        run (if startswith "AI" gemini_key && (30 <? String.length gemini_key)%nat
             then print "✅ Gemini API key format appears valid"
             else print "⚠️ Gemini API key format may be incorrect") then
        match if_set (OPENWEATHER_API_KEY env) with
        | Some weather_key =>
            run (print ("✅ OPENWEATHER_API_KEY loaded (length: "
                        +:+ str_nat (String.length weather_key) +:+ ")")) then
            run (if (String.length weather_key =? 32)%nat
                 then print "✅ OpenWeather API key format appears valid"
                 else print "⚠️ OpenWeather API key format may be incorrect (should be 32 characters)") then
            run (print (WeatherTool.nl +:+ "✅ Environment configuration check complete!")) then
            ret true
        | None =>
            run (print "❌ OPENWEATHER_API_KEY not found") then
            run (print "🔗 Get your API key from: https://openweathermap.org/api") then
            ret false
        end
    | None =>
        run (print "❌ GEMINI_API_KEY not found") then
        run (print "🔗 Get your API key from: https://ai.google.dev/aistudio") then
        ret false
    end
  else
    run (print "❌ .env file not found") then
    ret false.

(** [load_env_variables] *)
Definition load_env_variables (env : Environment) : option string * option string :=
  (GEMINI_API_KEY env, OPENWEATHER_API_KEY env).

(** The two warnings about the shape of a key. *)
Definition format_warnings : list string :=
  [ "⚠️ Gemini API key format may be incorrect";
    "⚠️ OpenWeather API key format may be incorrect (should be 32 characters)" ].

End Config.

(* ===================================================================== *)
(** * Facts about the string operations *)
(* ===================================================================== *)

Section StringFacts.
Import PyStr.

Lemma append_assoc (a b c : string) : (a +:+ b) +:+ c = a +:+ (b +:+ c).
Proof. induction a as [|x a IH]; simpl; [reflexivity | now rewrite IH]. Qed.

Lemma append_empty_r (a : string) : a +:+ "" = a.
Proof. induction a as [|x a IH]; simpl; [reflexivity | now rewrite IH]. Qed.

Lemma lower_app (a b : string) : lower (a +:+ b) = lower a +:+ lower b.
Proof. induction a as [|x a IH]; simpl; [reflexivity | now rewrite IH]. Qed.

(** [lower] works character by character, so a split of the lowered text
    is the image of a split of the text. *)
Lemma lower_split (s x y : string) :
  lower s = x +:+ y ->
  exists s1 s2, s = s1 +:+ s2 /\ lower s1 = x /\ lower s2 = y.
Proof.
  revert s. induction x as [|c x IH]; intros s H.
  - exists EmptyString, s. auto.
  - destruct s as [|d s]; simpl in H; [discriminate|].
    injection H as Hc Hs.
    destruct (IH _ Hs) as (s1 & s2 & -> & H1 & H2).
    exists (String d s1), s2. simpl. now rewrite Hc, H1.
Qed.

Lemma startswith_spec (k s : string) :
  startswith k s = true <-> exists rest, s = k +:+ rest.
Proof.
  revert s. induction k as [|a k IH]; intros s; simpl.
  - split; [intros _; now exists s | reflexivity].
  - destruct s as [|b s].
    + split; [discriminate | intros [r Hr]; discriminate].
    + destruct (Ascii.eqb_spec a b) as [->|Hab].
      * rewrite IH. split; intros [r Hr]; exists r; congruence.
      * split; [discriminate | intros [r Hr]; congruence].
Qed.

Lemma contains_spec (k s : string) :
  contains k s = true <-> occurs_in k s.
Proof.
  unfold occurs_in. induction s as [|c s IH]; simpl.
  - rewrite startswith_spec. split.
    + intros [r Hr]. exists EmptyString, r. exact Hr.
    + intros (a & b & H). destruct a; simpl in H; [now exists b | discriminate].
  - rewrite orb_true_iff, IH, startswith_spec. split.
    + intros [[r Hr] | (a & b & H)].
      * exists EmptyString, r. exact Hr.
      * exists (String c a), b. simpl. now rewrite H.
    + intros (a & b & H). destruct a as [|x a]; simpl in H.
      * left. now exists b.
      * right. injection H as _ H. now exists a, b.
Qed.

(** The test the code writes, [k in s.lower()] for a lower-case keyword,
    is case-insensitive substring search. *)
Lemma contains_lower_spec (k s : string) :
  lower k = k ->
  contains k (lower s) = true <-> occurs_in_ci k s.
Proof.
  intros Hk. rewrite contains_spec. unfold occurs_in, occurs_in_ci. split.
  - intros (a & b & H).
    destruct (lower_split _ _ _ H) as (s1 & s2 & -> & H1 & H2).
    destruct (lower_split _ _ _ H2) as (u & s3 & -> & Hu & H3).
    exists s1, u, s3. split; [reflexivity | congruence].
  - intros (a & u & b & -> & Hu).
    exists (lower a), (lower b). rewrite !lower_app. congruence.
Qed.

Lemma concat_app (xs ys : list string) :
  concat (xs ++ ys) = concat xs +:+ concat ys.
Proof.
  induction xs as [|x xs IH]; [reflexivity|].
  change (x +:+ concat (xs ++ ys) = (x +:+ concat xs) +:+ concat ys).
  now rewrite IH, append_assoc.
Qed.

End StringFacts.

(* ===================================================================== *)
(** * Packing lists *)
(* ===================================================================== *)

Section PackingFacts.
Import PyStr TravelKnowledgeHelper.

Lemma get_packing_list_eq (destination weather : string) (duration : Z) :
  get_packing_list destination weather duration =
  essentials packing ++ weather_items weather ++ extras_for duration.
Proof.
  unfold get_packing_list, extras_for.
  destruct (7 <? duration); [now rewrite <- app_assoc | now rewrite app_nil_r].
Qed.

(** The weather contributes one bucket of the table, or nothing. *)
Lemma weather_items_cases (weather : string) :
  weather_items weather = hot (weather_gear packing) \/
  weather_items weather = cold (weather_gear packing) \/
  weather_items weather = rainy (weather_gear packing) \/
  weather_items weather = [].
Proof.
  unfold weather_items.
  repeat match goal with |- context [if ?b then _ else _] => destruct b end; auto.
Qed.

Lemma no_extras_before_duration (weather item : string) :
  item ∈ duration_extras ->
  item ∉ essentials packing ++ weather_items weather.
Proof.
  intros Hin.
  assert (Hall : forall bucket,
             bucket = hot (weather_gear packing) \/
             bucket = cold (weather_gear packing) \/
             bucket = rainy (weather_gear packing) \/
             bucket = [] ->
             Forall (fun x => x ∉ essentials packing ++ bucket) duration_extras).
  { intros bucket [-> | [-> | [-> | ->]]];
      apply (bool_decide_unpack _); vm_compute; reflexivity. }
  specialize (Hall _ (weather_items_cases weather)).
  rewrite Forall_forall in Hall. now apply Hall.
Qed.

End PackingFacts.

Section PackingTheorems.
Import PyStr TravelKnowledgeHelper.

(** The tests of the code decide the three keyword conditions. *)
Lemma hot_keyword_iff (weather : string) :
  hot_keyword weather <->
  contains "hot" (lower weather) || contains "sunny" (lower weather) = true.
Proof.
  unfold hot_keyword. rewrite orb_true_iff.
  now rewrite <- !(contains_lower_spec _ weather) by reflexivity.
Qed.

Lemma cold_keyword_iff (weather : string) :
  cold_keyword weather <->
  contains "cold" (lower weather) || contains "snow" (lower weather) = true.
Proof.
  unfold cold_keyword. rewrite orb_true_iff.
  now rewrite <- !(contains_lower_spec _ weather) by reflexivity.
Qed.

Lemma rain_keyword_iff (weather : string) :
  rain_keyword weather <-> contains "rain" (lower weather) = true.
Proof.
  unfold rain_keyword.
  now rewrite <- !(contains_lower_spec _ weather) by reflexivity.
Qed.

(** The bucket is chosen by the first category whose keyword occurs, in
    the order hot, cold, rainy. *)
Lemma weather_items_first_match (weather : string) :
  (hot_keyword weather -> weather_items weather = hot (weather_gear packing)) /\
  (~ hot_keyword weather -> cold_keyword weather ->
     weather_items weather = cold (weather_gear packing)) /\
  (~ hot_keyword weather -> ~ cold_keyword weather -> rain_keyword weather ->
     weather_items weather = rainy (weather_gear packing)) /\
  (~ hot_keyword weather -> ~ cold_keyword weather -> ~ rain_keyword weather ->
     weather_items weather = []).
Proof.
  rewrite hot_keyword_iff, cold_keyword_iff, rain_keyword_iff.
  unfold weather_items.
  destruct (contains "hot" (lower weather) || contains "sunny" (lower weather)),
    (contains "cold" (lower weather) || contains "snow" (lower weather)),
    (contains "rain" (lower weather)); simpl; intuition congruence.
Qed.

(** C10: whatever the weather description and the duration, the packing
    list begins with the four essentials, passport, phone charger,
    medications, comfortable shoes, in that order; when no weather keyword
    occurs in the description and the duration is at most 7 the list is
    exactly the essentials. *)
Theorem packing_list_essentials_prefix (destination weather : string) (duration : Z) :
  essentials packing =
    ["passport"; "phone charger"; "medications"; "comfortable shoes"] /\
  essentials packing `prefix_of` get_packing_list destination weather duration /\
  (~ hot_keyword weather -> ~ cold_keyword weather -> ~ rain_keyword weather ->
   duration <= 7 ->
   get_packing_list destination weather duration = essentials packing).
Proof.
  split; [reflexivity|]. rewrite get_packing_list_eq. split.
  - now apply prefix_app_r.
  - intros Hh Hc Hr Hd.
    destruct (weather_items_first_match weather) as (_ & _ & _ & ->); auto.
    unfold extras_for. destruct (Z.ltb_spec 7 duration); [lia|].
    now rewrite !app_nil_r.
Qed.

Lemma packing_list_essentials_prefix_witness :
  get_packing_list "Oslo" "mild and overcast" 7 = essentials packing.
Proof.
  apply (packing_list_essentials_prefix "Oslo" "mild and overcast" 7).
  - rewrite hot_keyword_iff. vm_compute. discriminate.
  - rewrite cold_keyword_iff. vm_compute. discriminate.
  - rewrite rain_keyword_iff. vm_compute. discriminate.
  - lia.
Defined.

(** C3: for every weather description, a duration above 7 puts exactly
    the three duration extras (laundry detergent, extra underwear, backup
    electronics) at the end of the list, after what a duration of 7 gives;
    and with a duration of 7 the list holds none of the three. *)
Theorem packing_list_duration_extras (destination weather : string) (duration : Z) :
  duration_extras =
    ["laundry detergent"; "extra underwear"; "backup electronics"] /\
  (7 < duration ->
   get_packing_list destination weather duration =
   get_packing_list destination weather 7 ++ duration_extras) /\
  (forall item, item ∈ duration_extras ->
                item ∉ get_packing_list destination weather 7).
Proof.
  split; [reflexivity|]. rewrite !get_packing_list_eq. split.
  - intros Hd. unfold extras_for.
    destruct (Z.ltb_spec 7 duration); [|lia].
    change (7 <? 7) with false. now rewrite app_nil_r, <- app_assoc.
  - intros item Hin. change (extras_for 7) with (@nil string).
    rewrite app_nil_r. now apply no_extras_before_duration.
Qed.

Lemma packing_list_duration_extras_witness :
  get_packing_list "Lima" "Light Rain" 8 =
  get_packing_list "Lima" "Light Rain" 7 ++ duration_extras /\
  "extra underwear" ∉ get_packing_list "Lima" "Light Rain" 7.
Proof.
  split.
  - apply (packing_list_duration_extras "Lima" "Light Rain" 8). lia.
  - apply (packing_list_duration_extras "Lima" "Light Rain" 8).
    apply (bool_decide_unpack _). vm_compute. reflexivity.
Defined.




End PackingTheorems.

(* ===================================================================== *)
(** * Weather alerts *)
(* ===================================================================== *)

Section AlertFacts.
Import PyStr WeatherTool.







End AlertFacts.

(* ===================================================================== *)
(** * Weather forecast *)
(* ===================================================================== *)

Section ForecastFacts.
Import PyStr WeatherTool.

(** The loop, started on any text and date, appends [loop_output]. *)
Lemma fold_forecast_step (items : list ForecastItem) (text : string)
    (current_date : option string) :
  fst (fold_left forecast_step items (text, current_date)) =
  text +:+ loop_output current_date items.
Proof.
  revert text current_date.
  induction items as [|item rest IH]; intros text current_date;
    cbn [fold_left loop_output forecast_step].
  - cbn [fst]. now rewrite append_empty_r.
  - destruct (bool_decide (Some (forecast_date item) = current_date)) eqn:Hd.
    + apply bool_decide_eq_true in Hd as <-.
      rewrite IH. change ("" +:+ sample_line item) with (sample_line item).
      now rewrite append_assoc.
    + rewrite IH. now rewrite !append_assoc.
Qed.

Lemma string_leb_trans (a b c : string) :
  String.leb a b = true -> String.leb b c = true -> String.leb a c = true.
Proof.
  unfold String.leb. revert b c.
  induction a as [|x a IH]; intros [|y b] [|z c]; simpl; try congruence.
  unfold Ascii.compare.
  destruct (N.compare_spec (N_of_ascii x) (N_of_ascii y)),
    (N.compare_spec (N_of_ascii y) (N_of_ascii z)),
    (N.compare_spec (N_of_ascii x) (N_of_ascii z));
    try congruence; try lia; apply IH.
Qed.

Lemma non_decreasing_from_ge (d : string) (items : list ForecastItem) :
  non_decreasing_from d items ->
  forall item, item ∈ items -> String.leb d (forecast_date item) = true.
Proof.
  revert d. induction items as [|x rest IH]; intros d H item Hin.
  - inversion Hin.
  - destruct H as [Hd Hrest]. apply elem_of_cons in Hin as [->|Hin]; [exact Hd|].
    eapply string_leb_trans; [exact Hd|]. now apply (IH _ Hrest).
Qed.

(** The index-based reading of "non-decreasing" gives the recursive one. *)
Lemma non_decreasing_dates_from (x : ForecastItem) (rest : list ForecastItem) :
  non_decreasing_dates (x :: rest) ->
  non_decreasing_from (forecast_date x) rest.
Proof.
  revert x. induction rest as [|y rest IH]; intros x H; simpl; [exact I|].
  split.
  - apply (H 0%nat x y); reflexivity.
  - apply IH. intros i a b Ha Hb. apply (H (S i) a b); assumption.
Qed.

(** Once the dates have moved past [d], no later sample has date [d]. *)
Lemma later_dates_differ (d e : string) (items : list ForecastItem) :
  String.leb d e = true -> e <> d ->
  non_decreasing_from e items ->
  forall item, item ∈ items -> forecast_date item <> d.
Proof.
  intros Hde Hne Hsorted item Hin Heq.
  pose proof (non_decreasing_from_ge _ _ Hsorted _ Hin) as Hge.
  rewrite Heq in Hge. apply Hne. now apply String.leb_antisym.
Qed.

Lemma filter_all {A} (P : A -> Prop) `{!forall x, Decision (P x)} (l : list A) :
  (forall x, x ∈ l -> P x) -> filter P l = l.
Proof.
  induction l as [|x l IH]; intros Hall; [reflexivity|].
  rewrite filter_cons_True by (apply Hall; left).
  f_equal. apply IH. intros y Hy. apply Hall. now right.
Qed.

Lemma filter_none {A} (P : A -> Prop) `{!forall x, Decision (P x)} (l : list A) :
  (forall x, x ∈ l -> ~ P x) -> filter P l = [].
Proof.
  induction l as [|x l IH]; intros Hall; [reflexivity|].
  rewrite filter_cons_False by (apply Hall; left).
  apply IH. intros y Hy. apply Hall. now right.
Qed.

Lemma filter_other_date (d e : string) (ds : list string) :
  filter (fun x => x <> d) (filter (fun x => x <> e) ds) =
  filter (fun x => x <> e) (filter (fun x => x <> d) ds).
Proof.
  induction ds as [|x ds IH]; [reflexivity|].
  destruct (decide (x = d)) as [Hd|Hd], (decide (x = e)) as [He|He];
    repeat first [ rewrite filter_cons_True by (try assumption; congruence)
                 | rewrite filter_cons_False by (intros Hx; apply Hx; assumption) ];
    congruence.
Qed.

Lemma distinct_dates_filter (d : string) (ds : list string) :
  filter (fun x => x <> d) (distinct_dates ds) =
  distinct_dates (filter (fun x => x <> d) ds).
Proof.
  induction ds as [|e ds IH]; [reflexivity|].
  cbn [distinct_dates]. destruct (decide (e = d)) as [->|Hne].
  - rewrite !filter_cons_False by (intros Hx; now apply Hx).
    rewrite <- IH. apply filter_all.
    intros x Hx. now apply list_elem_of_filter in Hx as [Hx _].
  - rewrite !filter_cons_True by assumption.
    cbn [distinct_dates]. now rewrite filter_other_date, IH.
Qed.

Lemma distinct_dates_elem (d : string) (ds : list string) :
  d ∈ distinct_dates ds <-> d ∈ ds.
Proof.
  induction ds as [|e ds IH]; [reflexivity|].
  cbn [distinct_dates]. rewrite !elem_of_cons, list_elem_of_filter, IH.
  destruct (decide (d = e)); tauto.
Qed.

Lemma distinct_dates_NoDup (ds : list string) : NoDup (distinct_dates ds).
Proof.
  induction ds as [|e ds IH]; [constructor|].
  cbn [distinct_dates]. apply NoDup_cons. split.
  - rewrite list_elem_of_filter. tauto.
  - now apply NoDup_filter.
Qed.

Lemma distinct_dates_sublist (ds : list string) : distinct_dates ds `sublist_of` ds.
Proof.
  induction ds as [|e ds IH]; [constructor|].
  cbn [distinct_dates]. apply sublist_skip.
  etransitivity; [apply sublist_filter | exact IH].
Qed.

Lemma map_date_filter (d : string) (items : list ForecastItem) :
  map forecast_date (filter (fun item => forecast_date item <> d) items) =
  filter (fun x => x <> d) (map forecast_date items).
Proof.
  induction items as [|x items IH]; [reflexivity|].
  cbn [map]. destruct (decide (forecast_date x = d)) as [Hd|Hd].
  - now rewrite !filter_cons_False by (intros Hx; now apply Hx).
  - rewrite !filter_cons_True by assumption. cbn [map]. now rewrite IH.
Qed.

Lemma samples_of_filter (d e : string) (items : list ForecastItem) :
  e <> d ->
  samples_of e (filter (fun item => forecast_date item <> d) items) =
  samples_of e items.
Proof.
  intros Hne. unfold samples_of.
  induction items as [|x items IH]; [reflexivity|].
  destruct (decide (forecast_date x = d)) as [Hd|Hd].
  - rewrite (filter_cons_False (fun item => forecast_date item <> d))
      by (intros Hx; now apply Hx).
    rewrite (filter_cons_False (fun item => forecast_date item = e)) by congruence.
    exact IH.
  - rewrite (filter_cons_True (fun item => forecast_date item <> d)) by assumption.
    destruct (decide (forecast_date x = e)) as [He|He].
    + rewrite !(filter_cons_True (fun item => forecast_date item = e)) by assumption.
      now rewrite IH.
    + rewrite !(filter_cons_False (fun item => forecast_date item = e)) by assumption.
      exact IH.
Qed.

(** The blocks of a list that starts with a sample of date [d]: the block
    of [d], holding that sample and the later samples of date [d], then
    the blocks of the samples of other dates. *)
Lemma date_blocks_cons (x : ForecastItem) (rest : list ForecastItem) :
  date_blocks (x :: rest) =
  date_heading (forecast_date x) +:+
  (sample_line x +:+ concat (map sample_line (samples_of (forecast_date x) rest))) +:+
  date_blocks (filter (fun item => forecast_date item <> forecast_date x) rest).
Proof.
  set (d := forecast_date x).
  set (others := filter (fun item => forecast_date item <> d) rest).
  assert (Hblocks : map (date_block (x :: rest))
                        (distinct_dates (map forecast_date others)) =
                    map (date_block others)
                        (distinct_dates (map forecast_date others))).
  { apply map_ext_in. intros e He.
    apply list_elem_of_In in He. rewrite distinct_dates_elem in He.
    subst others. rewrite map_date_filter in He.
    apply list_elem_of_filter in He as [Hne _].
    unfold date_block. f_equal. f_equal.
    rewrite samples_of_filter by assumption.
    unfold samples_of.
    now rewrite filter_cons_False by (intros Hx; apply Hne; now rewrite <- Hx). }
  unfold date_blocks. cbn [map distinct_dates]. fold d. cbn [map concat].
  rewrite distinct_dates_filter, <- map_date_filter. fold others.
  rewrite Hblocks.
  unfold date_block at 1. unfold samples_of at 1.
  rewrite filter_cons_True by reflexivity. cbn [map concat].
  fold (samples_of d rest). now rewrite !append_assoc.
Qed.

(** On non-decreasing dates the loop, once it has printed the heading of
    [d], prints the remaining samples of [d] and then the blocks of the
    later dates. *)
Lemma loop_output_sorted (d : string) (items : list ForecastItem) :
  non_decreasing_from d items ->
  loop_output (Some d) items =
  concat (map sample_line (samples_of d items)) +:+
  date_blocks (filter (fun item => forecast_date item <> d) items).
Proof.
  revert d. induction items as [|y rest IH]; intros d Hsorted; [reflexivity|].
  destruct Hsorted as [Hde Hrest]. cbn [loop_output].
  destruct (decide (forecast_date y = d)) as [Heq|Hne].
  - rewrite bool_decide_eq_true_2 by congruence.
    rewrite Heq in Hrest. rewrite Heq, (IH _ Hrest).
    unfold samples_of. rewrite filter_cons_True by assumption.
    rewrite filter_cons_False by (intros Hx; now apply Hx).
    cbn [map concat]. now rewrite append_assoc.
  - rewrite bool_decide_eq_false_2 by congruence.
    rewrite (IH _ Hrest).
    pose proof (later_dates_differ d _ rest Hde Hne Hrest) as Hlater.
    unfold samples_of at 2. rewrite filter_cons_False by assumption.
    rewrite (filter_none (fun item => forecast_date item = d))
      by (intros item Hin; now apply Hlater).
    rewrite filter_cons_True by assumption.
    rewrite (filter_all (fun item => forecast_date item <> d)) by exact Hlater.
    rewrite date_blocks_cons. cbn [map concat].
    now rewrite !append_assoc.
Qed.

(** On non-decreasing dates the loop writes the grouped text. *)
Lemma forecast_text_grouped (api : Provider) (city : string) (days : Z)
    (country : option string) (data : ForecastData) :
  forecast api (location city country) (Z.min (days * 8) 40) = inr data ->
  non_decreasing_dates (list_ data) ->
  get_weather_forecast api city days country = grouped_forecast data.
Proof.
  intros Hresp Hsorted.
  unfold get_weather_forecast, grouped_forecast. rewrite Hresp.
  rewrite fold_forecast_step. f_equal.
  destruct (list_ data) as [|x rest]; [reflexivity|].
  fold (date_blocks (x :: rest)). rewrite date_blocks_cons.
  cbn [loop_output]. rewrite bool_decide_eq_false_2 by discriminate.
  rewrite (loop_output_sorted _ _ (non_decreasing_dates_from _ _ Hsorted)).
  now rewrite !append_assoc.
Qed.

(** C4: for a forecast response whose samples have non-decreasing date
    stamps (the first ten characters of dt_txt), the rendered text is the
    title followed by one block per distinct date, the blocks in the order
    the dates first occur in the input; the block of a date is its heading,
    a line break, the calendar sign, the date, a colon and a line break,
    followed by the lines of all samples of that date in input order, each
    line being two blanks, the time (characters 11 to 16 of dt_txt), a
    colon, the temperature with the unit, a comma, the condition and a line
    break. So every distinct date has exactly one heading and every sample
    line stands beneath the heading of its own date. *)
Theorem forecast_grouped_by_date (api : Provider) (city : string) (days : Z)
    (country : option string) (data : ForecastData) :
  forecast api (location city country) (Z.min (days * 8) 40) = inr data ->
  non_decreasing_dates (list_ data) ->
  let date_of := fun item => take 10 (dt_txt item) in
  let dates := map date_of (list_ data) in
  let title_text :=
    "Weather Forecast for " +:+ city_name data +:+ ", " +:+ city_country data
      +:+ ":" +:+ nl +:+ nl in
  let heading := fun d => nl +:+ "📅 " +:+ d +:+ ":" +:+ nl in
  let line := fun item =>
    "  " +:+ slice 11 16 (dt_txt item) +:+ ": " +:+ item_temp item +:+ "°C, "
         +:+ item_description item +:+ nl in
  let samples := fun d => filter (fun item => date_of item = d) (list_ data) in
  let block := fun d => heading d +:+ concat (map line (samples d)) in
  get_weather_forecast api city days country =
    title_text +:+ concat (map block (distinct_dates dates)) /\
  NoDup (distinct_dates dates) /\
  (forall d, d ∈ distinct_dates dates <-> d ∈ dates) /\
  distinct_dates dates `sublist_of` dates /\
  (forall item d, item ∈ list_ data -> (item ∈ samples d <-> d = date_of item)).
Proof.
  intros Hresp Hsorted date_of dates title_text heading line samples block.
  split; [|split; [|split; [|split]]].
  - rewrite (forecast_text_grouped _ _ _ _ _ Hresp Hsorted). reflexivity.
  - apply distinct_dates_NoDup.
  - intros d. apply distinct_dates_elem.
  - apply distinct_dates_sublist.
  - intros item d Hin. subst samples. cbn beta. rewrite list_elem_of_filter.
    split; [intros [<- _]; reflexivity | intros ->; now split].
Qed.

Lemma forecast_grouped_by_date_witness :
  get_weather_forecast paris_api "Paris" 5 (Some "FR") =
  "Weather Forecast for Paris, FR:" +:+ nl +:+
  nl +:+
  nl +:+
  "📅 2024-06-01:" +:+ nl +:+
  "  09:00: 18.2°C, clear sky" +:+ nl +:+
  "  12:00: 21°C, few clouds" +:+ nl +:+
  nl +:+
  "📅 2024-06-02:" +:+ nl +:+
  "  00:00: 15.4°C, light rain" +:+ nl.
Proof.
  pose proof (forecast_grouped_by_date paris_api "Paris" 5 (Some "FR")) as H.
  edestruct H as (-> & _); [reflexivity | | reflexivity].
  intros [|[|i]] a b Ha Hb; cbn in Ha, Hb; try discriminate;
    injection Ha as <-; injection Hb as <-; reflexivity.
Defined.

End ForecastFacts.

(* ===================================================================== *)
(** * Order on time stamps, and sorting *)
(* ===================================================================== *)

Section OrderFacts.
Import Datetime Mongo.

Lemma lex_compare_antisym (a b : list nat) :
  lex_compare a b = CompOpp (lex_compare b a).
Proof.
  revert b. induction a as [|x a IH]; intros [|y b]; simpl; try reflexivity.
  rewrite (Nat.compare_antisym y x).
  destruct (Nat.compare y x); simpl; [apply IH | reflexivity | reflexivity].
Qed.

Lemma lex_compare_le_trans (a b c : list nat) :
  lex_compare a b <> Gt -> lex_compare b c <> Gt -> lex_compare a c <> Gt.
Proof.
  revert b c. induction a as [|x a IH]; intros [|y b] [|z c]; simpl;
    try congruence.
  destruct (Nat.compare_spec x y), (Nat.compare_spec y z),
    (Nat.compare_spec x z); try congruence; try lia; apply IH.
Qed.

Lemma leb_total (s t : datetime) : leb s t = true \/ leb t s = true.
Proof.
  unfold leb, compare. rewrite (lex_compare_antisym (fields t)).
  destruct (lex_compare (fields s) (fields t)); simpl; auto.
Qed.

Lemma leb_trans (s t u : datetime) :
  leb s t = true -> leb t u = true -> leb s u = true.
Proof.
  unfold leb, compare. intros H1 H2.
  pose proof (lex_compare_le_trans (fields s) (fields t) (fields u)) as H.
  destruct (lex_compare (fields s) (fields t)),
    (lex_compare (fields t) (fields u)),
    (lex_compare (fields s) (fields u)); try reflexivity; try discriminate;
    exfalso; apply H; congruence.
Qed.

Lemma ltb_not_leb (s t : datetime) : ltb s t = true -> leb t s = false.
Proof.
  unfold ltb, leb, compare. rewrite (lex_compare_antisym (fields t)).
  destruct (lex_compare (fields s) (fields t)); simpl; congruence.
Qed.

Context {A : Type} (key : A -> datetime).

Lemma insert_desc_elem (d x : A) (l : list A) :
  x ∈ insert_desc key d l <-> x = d \/ x ∈ l.
Proof.
  induction l as [|e l IH]; simpl.
  - rewrite list_elem_of_singleton, elem_of_nil. tauto.
  - destruct (leb (key e) (key d)).
    + rewrite !elem_of_cons. tauto.
    + rewrite !elem_of_cons, IH. tauto.
Qed.

Lemma insert_desc_sorted (d : A) (l : list A) :
  StronglySorted (descending key) l -> StronglySorted (descending key) (insert_desc key d l).
Proof.
  induction 1 as [|e l Hl IH Hall]; simpl.
  - repeat constructor.
  - destruct (leb (key e) (key d)) eqn:Hed.
    + constructor; [now constructor|].
      constructor; [exact Hed|].
      rewrite List.Forall_forall in *. intros x Hx.
      unfold descending in *. eapply leb_trans; [now apply Hall | exact Hed].
    + constructor; [exact IH|].
      rewrite List.Forall_forall in *. intros x Hx.
      apply list_elem_of_In, insert_desc_elem in Hx as [->|Hx].
      * unfold descending. destruct (leb_total (key e) (key d)); congruence.
      * apply Hall. now apply list_elem_of_In.
Qed.

Lemma sort_desc_sorted (l : list A) : StronglySorted (descending key) (sort_desc key l).
Proof.
  induction l as [|d l IH]; simpl; [constructor | now apply insert_desc_sorted].
Qed.

(** A document newer than all the others comes first, wherever it was
    inserted. *)
Lemma insert_desc_older (d x : A) (l : list A) :
  ltb (key d) (key x) = true ->
  insert_desc key d (x :: l) = x :: insert_desc key d l.
Proof. intros H. simpl. now rewrite (ltb_not_leb _ _ H). Qed.

Lemma sort_desc_newest_last (l : list A) (x : A) :
  (forall d, d ∈ l -> ltb (key d) (key x) = true) ->
  sort_desc key (l ++ [x]) = x :: sort_desc key l.
Proof.
  induction l as [|d l IH]; intros H; [reflexivity|].
  cbn [app sort_desc]. rewrite IH by (intros e He; apply H; now right).
  apply insert_desc_older. apply H. now left.
Qed.

Lemma firstn_sorted (n : nat) (l : list A) :
  StronglySorted (descending key) l -> StronglySorted (descending key) (firstn n l).
Proof.
  intros H. revert n. induction H as [|e l Hl IH Hall]; intros [|n]; simpl;
    try constructor.
  - apply IH.
  - rewrite List.Forall_forall in *. intros x Hx.
    apply Hall. apply list_elem_of_In, (subseteq_take n l).
    now apply list_elem_of_In.
Qed.

Lemma limit_docs_sorted (n : Z) (l : list A) :
  StronglySorted (descending key) l -> StronglySorted (descending key) (limit_docs n l).
Proof.
  intros H. unfold limit_docs. destruct (n =? 0); [exact H|].
  now apply firstn_sorted.
Qed.

Lemma sorted_lookup (l : list A) (i j : nat) (a b : A) :
  StronglySorted (descending key) l -> (i < j)%nat ->
  l !! i = Some a -> l !! j = Some b -> descending key a b.
Proof.
  intros H. revert i j. induction H as [|e l Hl IH Hall]; intros i j Hij Ha Hb.
  - discriminate.
  - destruct j as [|j]; [lia|]. destruct i as [|i]; simpl in *.
    + injection Ha as <-. rewrite List.Forall_forall in Hall.
      apply Hall. apply list_elem_of_In. eapply list_elem_of_lookup_2. exact Hb.
    + apply (IH i j); [lia | assumption | assumption].
Qed.

End OrderFacts.

(* ===================================================================== *)
(** * The store: what the methods do to the world *)
(* ===================================================================== *)

Section StoreFacts.
Import PyStr Mongo TravelDatabase.

(** Unfolds a method on a world whose fields are known. *)
Ltac run_method w Hfault :=
  destruct w; cbn in Hfault; subst; reflexivity.

Lemma save_trip_history_ok (t_id t_created : datetime) (user_id : string)
    (trip_data : gmap string value) (w : World) :
  fault w = None ->
  save_trip_history t_id t_created user_id trip_data w =
  (Return true,
   set_stdout (stdout w ++ ["✅ Saved trip history: " +:+ str_oid (next_oid w)])
     (set_trip_history
        (trip_history w ++
           [{| _id := next_oid w;
               body := stored_trip (trip_document t_id t_created user_id trip_data) |}])
        (set_next_oid (next_oid w + 1)%N w))).
Proof. intros Hfault. run_method w Hfault. Qed.

Lemma get_trip_history_ok (user_id : string) (limit : Z) (w : World) :
  fault w = None ->
  get_trip_history user_id limit w =
  (Return (map stringify_id
             (limit_docs limit
                (sort_desc (fun d => created_at (body d))
                   (List.filter (fun d => has_user_id trip_user_id user_id (body d))
                                (trip_history w))))), w).
Proof. intros Hfault. run_method w Hfault. Qed.

Lemma get_trip_history_fault (user_id : string) (limit : Z) (w : World) (e : string) :
  fault w = Some e ->
  get_trip_history user_id limit w =
  (Return [], set_stdout (stdout w ++ ["❌ Error getting trip history: " +:+ e]) w).
Proof. intros Hfault. run_method w Hfault. Qed.

Lemma newest_first_map (docs : list (Stored TripDoc)) :
  StronglySorted (descending (fun d => created_at (body d))) docs ->
  newest_first (map stringify_id docs).
Proof.
  intros Hsorted i j a b Hij Ha Hb.
  rewrite list_lookup_fmap in Ha, Hb.
  destruct (docs !! i) as [a'|] eqn:Hi; [|discriminate].
  destruct (docs !! j) as [b'|] eqn:Hj; [|discriminate].
  injection Ha as <-. injection Hb as <-.
  exact (sorted_lookup _ docs i j a' b' Hsorted Hij Hi Hj).
Qed.

(** Whatever the state of the server, the trips come newest first. *)
Lemma get_trip_history_newest_first (user_id : string) (limit : Z) (w : World) :
  exists trips,
    fst (get_trip_history user_id limit w) = Return trips /\ newest_first trips.
Proof.
  destruct (fault w) as [e|] eqn:Hfault.
  - rewrite (get_trip_history_fault _ _ _ _ Hfault). eexists. split; [reflexivity|].
    intros i j a b _ Ha. discriminate.
  - rewrite (get_trip_history_ok _ _ _ Hfault). eexists. split; [reflexivity|].
    apply newest_first_map, limit_docs_sorted, sort_desc_sorted.
Qed.

(** With the clock, cut to the millisecond, ahead of the stored trips of
    the user, the trip just appended is the one a listing of length one
    returns, as the store holds it. *)
Lemma append_then_list_one_ok (w : World) (t_id t_created : datetime)
    (user_id : string) (trip_data : gmap string value) :
  fault w = None ->
  clock_ahead_of_trips w user_id t_created ->
  append_then_list_one w t_id t_created user_id trip_data.
Proof.
  intros Hfault Hclock. unfold append_then_list_one.
  rewrite (save_trip_history_ok _ _ _ _ _ Hfault). cbn [fst snd].
  split; [reflexivity|].
  rewrite get_trip_history_ok by (destruct w; exact Hfault).
  cbn [fst]. f_equal.
  replace (trip_history _) with
    (trip_history w ++
       [{| _id := next_oid w;
           body := stored_trip (trip_document t_id t_created user_id trip_data) |}])
    by (destruct w; reflexivity).
  rewrite List.filter_app.
  cbn [List.filter body stored_trip trip_document trip_user_id].
  unfold has_user_id at 2. rewrite String.eqb_refl.
  rewrite sort_desc_newest_last; [reflexivity|].
  intros d Hd. apply list_elem_of_In, List.filter_In in Hd as [Hd Huser].
  apply (Hclock d); [now apply list_elem_of_In|].
  now apply String.eqb_eq.
Qed.

Lemma late_world_reachable : reachable late_world.
Proof. eapply reachable_step; [apply reachable_empty | apply step_save_trip_history]. Qed.

(** C1, as stated, fails: with a trip stamped 12:00:05 in the store, a
    trip appended when the clock reads 12:00:03 is not the one a listing
    of length one returns; the older record, stamped later, is. *)
Lemma append_then_list_one_clock_back :
  reachable late_world /\ fault late_world = None /\
  fst (save_trip_history (noon 3 0) (noon 3 10) "u" rome_trip late_world) = Return true /\
  ~ append_then_list_one late_world (noon 3 0) (noon 3 10) "u" rome_trip.
Proof.
  split; [exact late_world_reachable|]. split; [reflexivity|].
  split; [reflexivity|].
  intros [_ H]. vm_compute in H. discriminate H.
Qed.

Example listing_after_clock_back :
  fst (get_trip_history "u" 1
         (snd (save_trip_history (noon 3 0) (noon 3 10) "u" rome_trip late_world))) =
  Return [ {| id_str := str_oid 0%N;
              fields_of :=
                stored_trip (trip_document (noon 5 0) (noon 5 10) "u" paris_trip) |} ].
Proof. reflexivity. Qed.

(** The store keeps created_at to the millisecond, so a strictly later
    clock reading is not enough either: with a trip created at 12:00:05
    and 100 microseconds in the store, a trip appended 800 microseconds
    later gets the same stored created_at, and the listing of length one
    returns the older record, which the sort leaves in front. *)
Example listing_within_one_millisecond :
  Datetime.ltb (noon 5 100) (noon 5 900) = true /\
  fst (get_trip_history "u" 1
         (snd (save_trip_history (noon 5 900) (noon 5 900) "u" rome_trip
                 (snd (save_trip_history (noon 5 100) (noon 5 100) "u" paris_trip
                         empty_world))))) =
  Return [ {| id_str := str_oid 0%N;
              fields_of :=
                stored_trip (trip_document (noon 5 100) (noon 5 100) "u" paris_trip) |} ].
Proof. split; reflexivity. Qed.

(** What is read back is the record as stored, not the document as
    written: its created_at has lost the microseconds. *)
Example listing_returns_stored_form :
  created_at (stored_trip (trip_document (noon 5 0) (noon 5 1900) "u" rome_trip)) =
  noon 5 1000.
Proof. reflexivity. Qed.

(** C1, amended: when the store accepts the write and the clock reading
    taken for created_at, cut to the millisecond as the store keeps it, is
    strictly later than the created_at of every trip already stored for
    that user, appending a trip and then listing with limit 1 returns
    exactly the record just written, as the store holds it (its _id as
    text, its created_at cut to the millisecond), as the only element; and
    for every user and limit, whatever the state of the store, the listing
    is ordered by created_at, newest first. *)
Theorem append_then_list_newest (w : World) (t_id t_created : datetime)
    (user_id : string) (trip_data : gmap string value) :
  (fault w = None ->
   clock_ahead_of_trips w user_id t_created ->
   append_then_list_one w t_id t_created user_id trip_data) /\
  (forall limit, exists trips,
      fst (get_trip_history user_id limit w) = Return trips /\
      newest_first trips).
Proof.
  split.
  - apply append_then_list_one_ok.
  - intros limit. apply get_trip_history_newest_first.
Qed.

Lemma append_then_list_newest_witness :
  append_then_list_one late_world (noon 5 0) (noon 5 1900) "u" rome_trip.
Proof.
  apply (append_then_list_newest late_world (noon 5 0) (noon 5 1900) "u" rome_trip).
  - reflexivity.
  - intros d Hd _. apply list_elem_of_In in Hd. vm_compute in Hd.
    destruct Hd as [<-|[]]. reflexivity.
Defined.

Lemma same_second_strftime (s t : datetime) :
  Datetime.same_second s t ->
  Datetime.strftime_Ymd_HMS s = Datetime.strftime_Ymd_HMS t.
Proof.
  intros (Hy & Hm & Hd & Hh & Hmin & Hs). unfold Datetime.strftime_Ymd_HMS.
  now rewrite Hy, Hm, Hd, Hh, Hmin, Hs.
Qed.

(** C5, as stated, fails: of two trips saved within the same second for
    the same user, the first is still stored under the shared trip_id
    after the second has been saved. *)
Lemma same_second_first_write_kept :
  Datetime.same_second (noon 5 100) (noon 5 900) /\
  ~ last_write_wins empty_world "u"
      (noon 5 100) (noon 5 120) paris_trip
      (noon 5 900) (noon 5 950) rome_trip.
Proof.
  split; [repeat split|].
  intros [oid H]. vm_compute in H. discriminate H.
Qed.

(** C5, amended: the trip_id is the user_id, an underscore and the clock
    reading formatted to the second, so two trips saved within the same
    second for the same user get equal trip_id values; the store accepts
    both inserts, the second is not rejected, and both records stay
    stored in the order written (their created_at cut to the millisecond),
    each under its own _id: nothing is overwritten. *)
Theorem same_second_trips_share_id (w : World) (user_id : string)
    (t_id1 t_created1 : datetime) (trip_data1 : gmap string value)
    (t_id2 t_created2 : datetime) (trip_data2 : gmap string value) :
  let doc1 := trip_document t_id1 t_created1 user_id trip_data1 in
  let doc2 := trip_document t_id2 t_created2 user_id trip_data2 in
  let saved1 := save_trip_history t_id1 t_created1 user_id trip_data1 w in
  let saved2 := save_trip_history t_id2 t_created2 user_id trip_data2 (snd saved1) in
  trip_id doc1 = user_id +:+ "_" +:+ Datetime.strftime_Ymd_HMS t_id1 /\
  (Datetime.same_second t_id1 t_id2 ->
   trip_id doc1 = trip_id doc2 /\
   (fault w = None ->
    fst saved1 = Return true /\ fst saved2 = Return true /\
    trip_history (snd saved2) =
      trip_history w ++ [ {| _id := next_oid w; body := stored_trip doc1 |};
                          {| _id := (next_oid w + 1)%N; body := stored_trip doc2 |} ])).
Proof.
  intros doc1 doc2 saved1 saved2. split; [reflexivity|].
  intros Hsame. split.
  - subst doc1 doc2. cbn [trip_document trip_id].
    now rewrite (same_second_strftime _ _ Hsame).
  - intros Hfault. subst saved1 saved2 doc1 doc2.
    destruct w; cbn in Hfault; subst.
    cbn [fst snd save_trip_history]. split; [reflexivity|]. split; [reflexivity|].
    cbn. now rewrite <- app_assoc.
Qed.

Lemma same_second_trips_share_id_witness :
  trip_id (trip_document (noon 5 100) (noon 5 120) "u" paris_trip) =
  trip_id (trip_document (noon 5 900) (noon 5 950) "u" rome_trip) /\
  length (trip_history
            (snd (save_trip_history (noon 5 900) (noon 5 950) "u" rome_trip
               (snd (save_trip_history (noon 5 100) (noon 5 120) "u" paris_trip
                       empty_world))))) = 2%nat.
Proof.
  pose proof (same_second_trips_share_id empty_world "u"
                (noon 5 100) (noon 5 120) paris_trip
                (noon 5 900) (noon 5 950) rome_trip) as H.
  cbv zeta in H. destruct H as [_ H].
  assert (Hsame : Datetime.same_second (noon 5 100) (noon 5 900))
    by (repeat split).
  destruct (H Hsame) as [Hid Hstore]. split; [exact Hid|].
  destruct (Hstore eq_refl) as (_ & _ & ->). reflexivity.
Defined.

End StoreFacts.

(* ===================================================================== *)
(** * Preferences: one record per user *)
(* ===================================================================== *)

Section PreferenceFacts.
Import PyStr Mongo TravelDatabase.

Context {A : Type} (p : A -> bool) (doc : A).

Lemma replace_first_None (l : list (Stored A)) :
  replace_first p doc l = None ->
  List.filter (fun d => p (body d)) l = [].
Proof.
  induction l as [|d l IH]; simpl; [reflexivity|].
  destruct (p (body d)); [discriminate|].
  destruct (replace_first p doc l); [discriminate|]. intros _. now apply IH.
Qed.

(** Replacing a document by one that every filter [q] of interest cannot
    tell from it leaves the number of documents passing [q] unchanged. *)
Lemma replace_first_length (q : A -> bool) (l l' : list (Stored A)) :
  replace_first p doc l = Some l' ->
  (forall a, p a = true -> q a = q doc) ->
  length (List.filter (fun d => q (body d)) l') =
  length (List.filter (fun d => q (body d)) l).
Proof.
  intros H Hq. revert l' H.
  induction l as [|d l IH]; intros l' H; simpl in H; [discriminate|].
  destruct (p (body d)) eqn:Hp.
  - injection H as <-. simpl. rewrite (Hq _ Hp). now destruct (q doc).
  - destruct (replace_first p doc l) as [l''|]; [|discriminate].
    injection H as <-. simpl. destruct (q (body d)); simpl; now rewrite (IH l'').
Qed.

Lemma replace_first_single (l l' : list (Stored A)) :
  replace_first p doc l = Some l' ->
  p doc = true ->
  (length (List.filter (fun d => p (body d)) l) <= 1)%nat ->
  exists oid, List.filter (fun d => p (body d)) l' = [{| _id := oid; body := doc |}].
Proof.
  intros H Hdoc. revert l' H.
  induction l as [|d l IH]; intros l' H Hlen; simpl in H; [discriminate|].
  simpl in Hlen. destruct (p (body d)) eqn:Hp.
  - injection H as <-. exists (_id d). simpl. rewrite Hdoc.
    simpl in Hlen. destruct (List.filter _ l); [reflexivity | simpl in Hlen; lia].
  - destruct (replace_first p doc l) as [l''|]; [|discriminate].
    injection H as <-. simpl. rewrite Hp. now apply IH.
Qed.

End PreferenceFacts.

Section UpsertFacts.
Import PyStr Mongo TravelDatabase.

Lemma save_user_preferences_ok (t1 t2 : datetime) (user_id : string)
    (prefs : gmap string value) (w : World) :
  fault w = None ->
  save_user_preferences t1 t2 user_id prefs w =
  (Return true,
   set_stdout (stdout w ++ ["✅ Saved preferences for user: " +:+ user_id])
     (upserted (stored_preferences (preferences_document t1 t2 user_id prefs)) w)).
Proof.
  intros Hfault. destruct w; cbn in Hfault; subst.
  unfold save_user_preferences, try_except, bind, replace_one_upsert, request,
    fresh_oid, upserted, preferences_document.
  cbn. destruct (replace_first _ _ _); reflexivity.
Qed.

Lemma save_user_preferences_fault (t1 t2 : datetime) (user_id : string)
    (prefs : gmap string value) (w : World) (e : string) :
  fault w = Some e ->
  save_user_preferences t1 t2 user_id prefs w =
  (Return false,
   set_stdout (stdout w ++ ["❌ Error saving preferences: " +:+ e]) w).
Proof. intros Hfault. destruct w; cbn in Hfault; subst; reflexivity. Qed.

(** After an accepted upsert the user has a single record, the document
    just written, provided the user had at most one record before. *)
Lemma upserted_single (document : PreferencesDoc) (w : World) :
  (length (preferences_of (pref_user_id document) w) <= 1)%nat ->
  exists oid,
    preferences_of (pref_user_id document) (upserted document w) =
    [{| _id := oid; body := document |}].
Proof.
  intros Hlen. unfold upserted, preferences_of in *.
  destruct (replace_first _ _ _) as [docs|] eqn:Hrep.
  - destruct (replace_first_single _ _ _ _ Hrep) as [oid Hoid].
    + unfold has_user_id. apply String.eqb_refl.
    + exact Hlen.
    + exists oid. destruct w; exact Hoid.
  - apply replace_first_None in Hrep. exists (next_oid w).
    destruct w; cbn in *. rewrite List.filter_app, Hrep. cbn.
    unfold has_user_id. now rewrite String.eqb_refl.
Qed.

(** An upsert never adds a second record for any user. *)
Lemma upserted_one_record_per_user (document : PreferencesDoc) (w : World) :
  one_record_per_user w -> one_record_per_user (upserted document w).
Proof.
  intros Hinv u. specialize (Hinv u). unfold upserted, preferences_of in *.
  destruct (replace_first _ _ _) as [docs|] eqn:Hrep.
  - replace (user_preferences (set_user_preferences docs w)) with docs
      by (destruct w; reflexivity).
    rewrite (replace_first_length _ _ (has_user_id pref_user_id u) _ _ Hrep);
      [exact Hinv|].
    intros a Ha. unfold has_user_id in *. apply String.eqb_eq in Ha.
    now rewrite Ha.
  - apply replace_first_None in Hrep.
    destruct w; cbn in *. rewrite List.filter_app, length_app. cbn.
    destruct (has_user_id pref_user_id u document) eqn:Hu; [|cbn; lia].
    unfold has_user_id in Hu. apply String.eqb_eq in Hu. subst u.
    rewrite Hrep. cbn. lia.
Qed.

Lemma one_record_same_preferences (w w' : World) :
  user_preferences w' = user_preferences w ->
  one_record_per_user w -> one_record_per_user w'.
Proof.
  intros Heq Hinv u. unfold preferences_of. rewrite Heq. apply Hinv.
Qed.

(** Unfolds a method call on a world given field by field, in both states
    of the server, and closes a goal that holds by computation. *)
Ltac by_cases_on_server w :=
  destruct w as [prefs trips mem oid [e|] names out calls];
  cbv [save_trip_history get_trip_history save_agent_memory get_agent_memory
       get_user_preferences get_database_stats search_destinations
       destination_filter try_except bind ret raise print request fresh_oid
       insert_one find_one find_sort_limit find_limit count_documents
       list_collection_names];
  cbn; repeat (case_match; simplify_eq/=); reflexivity.

(** No step but an upsert touches the preference records, and an upsert
    keeps them one per user. *)
Lemma step_one_record_per_user (w w' : World) :
  step w w' -> one_record_per_user w -> one_record_per_user w'.
Proof.
  intros Hstep Hinv. destruct Hstep.
  - destruct (fault w) as [e|] eqn:Hfault.
    + rewrite (save_user_preferences_fault _ _ _ _ _ _ Hfault).
      revert Hinv. apply one_record_same_preferences. destruct w; reflexivity.
    + rewrite (save_user_preferences_ok _ _ _ _ _ Hfault). cbn [snd].
      apply (one_record_same_preferences
               (upserted (stored_preferences (preferences_document t1 t2 user_id prefs)) w));
        [|apply upserted_one_record_per_user; exact Hinv].
      destruct (upserted _ w); reflexivity.
  - revert Hinv. apply one_record_same_preferences. by_cases_on_server w.
  - revert Hinv. apply one_record_same_preferences. by_cases_on_server w.
  - revert Hinv. apply one_record_same_preferences. by_cases_on_server w.
  - revert Hinv. apply one_record_same_preferences. by_cases_on_server w.
  - revert Hinv. apply one_record_same_preferences. by_cases_on_server w.
  - revert Hinv. apply one_record_same_preferences. by_cases_on_server w.
  - revert Hinv. apply one_record_same_preferences. by_cases_on_server w.
  - revert Hinv. apply one_record_same_preferences. destruct w; reflexivity.
  - revert Hinv. apply one_record_same_preferences. destruct w; reflexivity.
  - revert Hinv. apply one_record_same_preferences. destruct w; reflexivity.
Qed.

Lemma reachable_one_record_per_user (w : World) :
  reachable w -> one_record_per_user w.
Proof.
  induction 1 as [|w w' _ IH Hstep].
  - intros u. cbn. lia.
  - exact (step_one_record_per_user _ _ Hstep IH).
Qed.

Lemma get_user_preferences_single (user_id : string) (w : World)
    (d : Stored PreferencesDoc) :
  fault w = None ->
  preferences_of user_id w = [d] ->
  fst (get_user_preferences user_id w) = Return (Some (pref_preferences (body d))).
Proof.
  intros Hfault Hone. unfold preferences_of in Hone.
  destruct w; cbn in Hfault, Hone; subst.
  unfold get_user_preferences, try_except, bind, find_one, request. cbn.
  now rewrite Hone.
Qed.

(** C7: in every state the program can reach from an empty database,
    two accepted calls of upsertPreferences for the same user leave
    exactly one preference record for that user, holding the fields of
    the second call (its preferences and its two time stamps, cut to the
    millisecond as the store keeps them); nothing of the first call is
    kept, and getPreferences returns the second mapping. *)
Theorem upsert_twice_one_record (w : World) (user_id : string)
    (prefs1 prefs2 : gmap string value) (t1 t1' t2 t2' : datetime) :
  reachable w ->
  fault w = None ->
  let saved1 := save_user_preferences t1 t1' user_id prefs1 w in
  let saved2 := save_user_preferences t2 t2' user_id prefs2 (snd saved1) in
  fst saved1 = Return true /\
  fst saved2 = Return true /\
  (exists oid,
      preferences_of user_id (snd saved2) =
      [{| _id := oid;
          body := stored_preferences (preferences_document t2 t2' user_id prefs2) |}]) /\
  fst (get_user_preferences user_id (snd saved2)) = Return (Some prefs2).
Proof.
  intros Hreach Hfault saved1 saved2. subst saved1 saved2.
  rewrite (save_user_preferences_ok _ _ _ _ _ Hfault). cbn [fst snd].
  set (doc1 := stored_preferences (preferences_document t1 t1' user_id prefs1)).
  set (doc2 := stored_preferences (preferences_document t2 t2' user_id prefs2)).
  set (w1 := set_stdout _ (upserted doc1 w)).
  assert (Hfault1 : fault w1 = None).
  { subst w1. unfold upserted.
    destruct (replace_first _ _ _); destruct w; exact Hfault. }
  assert (Hone1 : (length (preferences_of user_id w1) <= 1)%nat).
  { destruct (upserted_single doc1 w) as [oid Hoid].
    - apply (reachable_one_record_per_user _ Hreach).
    - subst w1. cbn [doc1 pref_user_id stored_preferences preferences_document] in Hoid.
      replace (preferences_of user_id (set_stdout _ _)) with
        (preferences_of user_id (upserted doc1 w))
        by (destruct (upserted _ w); reflexivity).
      rewrite Hoid. cbn. lia. }
  rewrite (save_user_preferences_ok _ _ _ _ _ Hfault1). cbn [fst snd].
  fold doc2.
  destruct (upserted_single doc2 w1 Hone1) as [oid Hoid].
  cbn [doc2 pref_user_id stored_preferences preferences_document] in Hoid.
  fold doc2 in Hoid.
  set (w2 := set_stdout _ (upserted doc2 w1)).
  assert (Hprefs2 : preferences_of user_id w2 = [{| _id := oid; body := doc2 |}]).
  { subst w2. rewrite <- Hoid. destruct (upserted _ w1); reflexivity. }
  split; [reflexivity|]. split; [reflexivity|]. split; [now exists oid|].
  rewrite (get_user_preferences_single user_id w2 {| _id := oid; body := doc2 |});
    [reflexivity| |exact Hprefs2].
  subst w2. unfold upserted.
  destruct (replace_first _ _ _); destruct w1; exact Hfault1.
Qed.

(** The reachability hypothesis is what rules out stores filled by other
    means: there is no unique index on user_id, and [replace_one] touches
    the first matching record only, so duplicates put there by another
    writer would stay. *)
Example upsert_keeps_foreign_duplicates :
  length (preferences_of "u"
            (snd (save_user_preferences (noon 8 0) (noon 8 1) "u" rome_trip
                    (set_user_preferences
                       [ {| _id := 7%N;
                            body := preferences_document (noon 1 0) (noon 1 0) "u" ∅ |};
                         {| _id := 8%N;
                            body := preferences_document (noon 2 0) (noon 2 0) "u" ∅ |} ]
                       empty_world)))) = 2%nat.
Proof. reflexivity. Qed.

Lemma upsert_twice_one_record_witness :
  fst (get_user_preferences "u"
         (snd (save_user_preferences (noon 8 0) (noon 8 1) "u" rome_trip
            (snd (save_user_preferences (noon 7 0) (noon 7 1) "u" paris_trip
                    late_world))))) = Return (Some rome_trip).
Proof.
  pose proof (upsert_twice_one_record late_world "u" paris_trip rome_trip
                (noon 7 0) (noon 7 1) (noon 8 0) (noon 8 1)) as H.
  cbv zeta in H. apply H; [exact late_world_reachable | reflexivity].
Defined.

End UpsertFacts.

(* ===================================================================== *)
(** * Failures of the store *)
(* ===================================================================== *)

Section FailureFacts.
Import PyStr Mongo TravelDatabase.

Variable regex_i : string -> option (string -> bool).

(** A [try / except Exception] whose handler returns cannot raise. *)
Lemma try_except_returns {A} (body : M A) (handler : string -> M A) (w : World) :
  (forall e w', returns (handler e) w') -> returns (try_except body handler) w.
Proof.
  intros Hhandler. unfold returns, try_except in *.
  destruct (body w) as [[a|e] w']; [now exists a | apply Hhandler].
Qed.

Lemma print_then_ret_returns {A} (line : string) (a : A) (w : World) :
  returns (run (print line) then ret a) w.
Proof. now exists a. Qed.

(** No method of the store raises, whatever the state of the server. *)
Lemma methods_never_raise (w : World) :
  (forall t1 t2 u prefs, returns (save_user_preferences t1 t2 u prefs) w) /\
  (forall u, returns (get_user_preferences u) w) /\
  (forall t1 t2 u trip, returns (save_trip_history t1 t2 u trip) w) /\
  (forall u limit, returns (get_trip_history u limit) w) /\
  (forall t u a c r, returns (save_agent_memory t u a c r) w) /\
  (forall u a limit, returns (get_agent_memory u a limit) w) /\
  (forall q limit, returns (search_destinations regex_i q limit) w) /\
  returns get_database_stats w.
Proof.
  repeat split; intros; apply try_except_returns; intros;
    first [ apply print_then_ret_returns | eexists; reflexivity ].
Qed.

(** C6: when the store cannot be reached, every operation of the store
    catches the failure and hands a degraded value back: getPreferences
    returns None, listTrips, listConversations and the destination search
    return the empty list, the three save operations return False, and
    the statistics report the error with status Disconnected; and whatever
    the state of the store, no operation raises to its caller. *)
Theorem store_failure_degrades (w : World) :
  (forall e, fault w = Some e ->
     (forall t1 t2 u prefs,
         fst (save_user_preferences t1 t2 u prefs w) = Return false) /\
     (forall u, fst (get_user_preferences u w) = Return None) /\
     (forall t1 t2 u trip,
         fst (save_trip_history t1 t2 u trip w) = Return false) /\
     (forall u limit, fst (get_trip_history u limit w) = Return []) /\
     (forall t u a c r, fst (save_agent_memory t u a c r w) = Return false) /\
     (forall u a limit, fst (get_agent_memory u a limit w) = Return []) /\
     (forall q limit, fst (search_destinations regex_i q limit w) = Return []) /\
     fst (get_database_stats w) = Return (disconnected_stats e)) /\
  ((forall t1 t2 u prefs, returns (save_user_preferences t1 t2 u prefs) w) /\
   (forall u, returns (get_user_preferences u) w) /\
   (forall t1 t2 u trip, returns (save_trip_history t1 t2 u trip) w) /\
   (forall u limit, returns (get_trip_history u limit) w) /\
   (forall t u a c r, returns (save_agent_memory t u a c r) w) /\
   (forall u a limit, returns (get_agent_memory u a limit) w) /\
   (forall q limit, returns (search_destinations regex_i q limit) w) /\
   returns get_database_stats w).
Proof.
  split; [|apply methods_never_raise].
  intros e Hfault. destruct w; cbn in Hfault; subst.
  repeat split; intros; reflexivity.
Qed.

End FailureFacts.

Lemma store_failure_degrades_witness :
  fst (TravelDatabase.get_trip_history "u" 10
         (set_fault (Some "ServerSelectionTimeoutError") TravelDatabase.late_world)) =
    Return [] /\
  fst (TravelDatabase.get_user_preferences "u"
         (set_fault (Some "ServerSelectionTimeoutError") TravelDatabase.late_world)) =
    Return None.
Proof.
  destruct (store_failure_degrades TravelDatabase.no_regex
              (set_fault (Some "ServerSelectionTimeoutError") TravelDatabase.late_world))
    as [H _].
  destruct (H "ServerSelectionTimeoutError" eq_refl) as (_ & Hget & _ & Hlist & _).
  split; [apply Hlist | apply Hget].
Defined.

(* ===================================================================== *)
(** * Chat dispatch *)
(* ===================================================================== *)

Section ChatFacts.
Import TravelDatabase TravelScheduler.

Lemma chat_with_selected_agent (self : TravelScheduler) (now : datetime)
    (message agent_type : string) (w : World) :
  dispatched_to (select_agent self agent_type) self now message agent_type w.
Proof.
  unfold dispatched_to, chat_with_agent, agent_run, bind.
  set (agent := select_agent self agent_type).
  destruct (respond agent message) as [content|e]; [|split; destruct w; reflexivity].
  destruct (db self); destruct w as [prefs trips mem oid [e|] names out calls];
    split; reflexivity.
Qed.

(** C9: chat hands the message to the itinerary agent when agentType is
    "itinerary", to the memory agent when it is "memory", and to the
    advisor agent when it is "advisor" or any other text; the caller gets
    the answer of that agent. *)
Theorem chat_dispatch (self : TravelScheduler) (now : datetime)
    (message agent_type : string) (w : World) :
  (agent_type = "itinerary" ->
     dispatched_to (itinerary_agent self) self now message agent_type w) /\
  (agent_type = "memory" ->
     dispatched_to (memory_agent self) self now message agent_type w) /\
  (agent_type = "advisor" ->
     dispatched_to (advisor_agent self) self now message agent_type w) /\
  (agent_type <> "itinerary" -> agent_type <> "memory" ->
     dispatched_to (advisor_agent self) self now message agent_type w).
Proof.
  pose proof (chat_with_selected_agent self now message agent_type w) as H.
  unfold select_agent in H.
  split; [|split; [|split]].
  - intros Ht. subst agent_type. exact H.
  - intros Ht. subst agent_type. exact H.
  - intros Ht. subst agent_type. exact H.
  - intros Hi Hm. apply String.eqb_neq in Hi, Hm. now rewrite Hi, Hm in H.
Qed.

Lemma chat_dispatch_witness :
  fst (chat_with_agent echo_scheduler (noon 0 0) "Where next?" "concierge"
         empty_world) = Return "TravelAdvisor: Where next?" /\
  fst (chat_with_agent echo_scheduler (noon 0 0) "Day 2?" "itinerary"
         empty_world) = Return "TravelItineraryPlanner: Day 2?".
Proof.
  split.
  - destruct (chat_dispatch echo_scheduler (noon 0 0) "Where next?" "concierge"
                empty_world) as (_ & _ & _ & H).
    destruct H as [-> _]; [discriminate | discriminate | reflexivity].
  - destruct (chat_dispatch echo_scheduler (noon 0 0) "Day 2?" "itinerary"
                empty_world) as (H & _).
    destruct (H eq_refl) as [-> _]. reflexivity.
Defined.

End ChatFacts.

(* ===================================================================== *)
(** * Further properties: letter case, packing lists *)
(* ===================================================================== *)

Section CaseFacts.
Import PyStr TravelKnowledgeHelper.

Lemma lower_char_idem (c : ascii) : lower_char (lower_char c) = lower_char c.
Proof. destruct c as [[] [] [] [] [] [] [] []]; reflexivity. Qed.

Lemma lower_upper_char (c : ascii) : lower_char (upper_char c) = lower_char c.
Proof. destruct c as [[] [] [] [] [] [] [] []]; reflexivity. Qed.

Lemma lower_idem (s : string) : lower (lower s) = lower s.
Proof.
  induction s as [|c s IH]; simpl; [reflexivity|].
  now rewrite lower_char_idem, IH.
Qed.

Lemma lower_upper (s : string) : lower (upper s) = lower s.
Proof.
  induction s as [|c s IH]; simpl; [reflexivity|].
  now rewrite lower_upper_char, IH.
Qed.

(** [title] changes the case of letters and nothing else. *)
Lemma lower_title_from (b : bool) (s : string) : lower (title_from b s) = lower s.
Proof.
  revert b. induction s as [|c s IH]; intros b; simpl; [reflexivity|].
  rewrite IH. destruct b; now rewrite ?lower_char_idem, ?lower_upper_char.
Qed.

Lemma lower_title (s : string) : lower (title s) = lower s.
Proof. apply lower_title_from. Qed.



Lemma occurs_in_inside (k before s after : string) :
  occurs_in k s -> occurs_in k (before +:+ s +:+ after).
Proof.
  intros (a & b & ->). exists (before +:+ a), (b +:+ after).
  now rewrite !append_assoc.
Qed.


Lemma packing_list_lower_only (destination destination' weather weather' : string)
    (duration : Z) :
  lower weather = lower weather' ->
  get_packing_list destination weather duration =
  get_packing_list destination' weather' duration.
Proof.
  intros H. unfold get_packing_list, weather_items. now rewrite H.
Qed.

(** X1: for a weather description in ASCII, the packing list does not
    change when the description is put in upper case, in lower case or in
    title case, and it does not depend on the destination. (Outside ASCII
    the case mappings of Python do more than change the case of a letter,
    and the property is not claimed there.) *)
Theorem packing_list_same_letters (destination destination' weather : string)
    (duration : Z) :
  isascii weather = true ->
  get_packing_list destination (upper weather) duration =
    get_packing_list destination' weather duration /\
  get_packing_list destination (lower weather) duration =
    get_packing_list destination' weather duration /\
  get_packing_list destination (title weather) duration =
    get_packing_list destination' weather duration.
Proof.
  intros _. repeat split; apply packing_list_lower_only.
  - apply lower_upper.
  - apply lower_idem.
  - apply lower_title.
Qed.

Lemma packing_list_same_letters_witness :
  get_packing_list "Bergen" (upper "Light rain") 10 =
    get_packing_list "Lisbon" "Light rain" 10 /\
  get_packing_list "Bergen" (title "light rain") 10 =
    ["passport"; "phone charger"; "medications"; "comfortable shoes";
     "umbrella"; "waterproof jacket"; "quick-dry clothes";
     "laundry detergent"; "extra underwear"; "backup electronics"].
Proof.
  destruct (packing_list_same_letters "Bergen" "Lisbon" "Light rain" 10 eq_refl)
    as (Hupper & _ & _).
  destruct (packing_list_same_letters "Bergen" "Bergen" "light rain" 10 eq_refl)
    as (_ & _ & Htitle).
  split; [exact Hupper|]. rewrite Htitle. reflexivity.
Defined.

(** X2: whatever the inputs, the packing list names no item twice, although
    the hot and the cold bucket share "hat", and it has between 4 and 11
    items. *)
Theorem packing_list_no_duplicates (destination weather : string) (duration : Z) :
  NoDup (get_packing_list destination weather duration) /\
  (4 <= length (get_packing_list destination weather duration) <= 11)%nat.
Proof.
  rewrite get_packing_list_eq. unfold extras_for.
  destruct (weather_items_cases weather) as [-> | [-> | [-> | ->]]];
    destruct (7 <? duration); (split; [|cbn; lia]);
    apply (bool_decide_unpack _); vm_compute; reflexivity.
Qed.

End CaseFacts.

(* ===================================================================== *)
(** * Further properties: weather texts *)
(* ===================================================================== *)

Section WeatherExtras.
Import PyStr WeatherTool.






(** X4: a successful lookup whose place name or country code contains
    "Error" is taken for a failed one: the alerts function hands back the
    rendered weather text itself and reports no alert, whatever the
    conditions. *)
Theorem error_in_place_name_hides_alerts (api : Provider) (city : string)
    (country : option string) (data : CurrentData) :
  weather api (location city country) = inr data ->
  occurs_in "Error" (name data) \/ occurs_in "Error" (sys_country data) ->
  get_weather_alerts api city country = get_current_weather api city country /\
  startswith "Current Weather in " (get_weather_alerts api city country) = true.
Proof.
  intros Hresp Herr.
  assert (Hin : occurs_in "Error" (get_current_weather api city country)).
  { unfold get_current_weather. rewrite Hresp. destruct Herr as [H|H].
    - apply (occurs_in_inside _ "Current Weather in " (name data)). exact H.
    - pose proof (occurs_in_inside "Error"
                    ("Current Weather in " +:+ name data +:+ ", ") _
                    (":" +:+ nl +:+
                     indent +:+ "Temperature: " +:+ main_temp data +:+ "°C (feels like "
                       +:+ main_feels_like data +:+ "°C)" +:+ nl +:+
                     indent +:+ "Condition: " +:+ title (weather_description data) +:+ nl +:+
                     indent +:+ "Humidity: " +:+ main_humidity data +:+ "%" +:+ nl +:+
                     indent +:+ "Wind Speed: " +:+ wind_speed data +:+ " m/s") H) as H'.
      now rewrite !append_assoc in H'. }
  apply contains_spec in Hin.
  assert (Heq : get_weather_alerts api city country =
                get_current_weather api city country).
  { unfold get_weather_alerts, alerts_of_text. now rewrite Hin. }
  split; [exact Heq|]. rewrite Heq.
  unfold get_current_weather. rewrite Hresp. apply startswith_spec. eexists. reflexivity.
Qed.

Lemma error_in_place_name_hides_alerts_witness :
  get_weather_alerts
    {| weather := fun _ =>
         inr {| name := "Errorville"; sys_country := "US"; main_temp := "3";
                weather_description := "heavy snow"; main_humidity := "90";
                wind_speed := "9"; main_feels_like := "-2" |};
       forecast := fun _ _ => inl "unused" |} "Errorville" None =
  get_current_weather
    {| weather := fun _ =>
         inr {| name := "Errorville"; sys_country := "US"; main_temp := "3";
                weather_description := "heavy snow"; main_humidity := "90";
                wind_speed := "9"; main_feels_like := "-2" |};
       forecast := fun _ _ => inl "unused" |} "Errorville" None.
Proof.
  eapply error_in_place_name_hides_alerts; [reflexivity|].
  left. apply contains_spec. reflexivity.
Defined.

(** X5: the forecast asks the provider for at most 40 samples, so asking
    for 5 days or more gives the text of a 5-day forecast; and a failed
    lookup gives the text "Error getting forecast data: " followed by the
    message of the failure, not an exception. *)
Theorem forecast_capped_at_five_days (api : Provider) (city : string) (days : Z)
    (country : option string) :
  (5 <= days ->
   get_weather_forecast api city days country =
   get_weather_forecast api city 5 country) /\
  (forall e, forecast api (location city country) (Z.min (days * 8) 40) = inl e ->
             get_weather_forecast api city days country =
             "Error getting forecast data: " +:+ e).
Proof.
  split.
  - intros Hdays. unfold get_weather_forecast.
    now replace (Z.min (days * 8) 40) with (Z.min (5 * 8) 40) by lia.
  - intros e He. unfold get_weather_forecast. now rewrite He.
Qed.

Lemma forecast_capped_at_five_days_witness :
  get_weather_forecast paris_api "Paris" 30 (Some "FR") =
  get_weather_forecast paris_api "Paris" 5 (Some "FR").
Proof.
  apply (forecast_capped_at_five_days paris_api "Paris" 30 (Some "FR")). lia.
Defined.

End WeatherExtras.

(* ===================================================================== *)
(** * Further properties: trip identifiers *)
(* ===================================================================== *)

Section TripIdFacts.
Import PyStr Datetime TravelDatabase.

Lemma zfill_round_trip (width bound n : nat) :
  forallb (fun n => (String.length (zfill width n) =? width)%nat
                    && (parse_nat (zfill width n) =? n)%nat)
          (seq 0 bound) = true ->
  (n < bound)%nat ->
  String.length (zfill width n) = width /\ parse_nat (zfill width n) = n.
Proof.
  intros Hall Hn. rewrite forallb_forall in Hall.
  specialize (Hall n). rewrite andb_true_iff, !Nat.eqb_eq in Hall.
  apply Hall, in_seq. lia.
Qed.

Lemma zfill2 (n : nat) :
  (n < 100)%nat ->
  String.length (zfill 2 n) = 2%nat /\ parse_nat (zfill 2 n) = n.
Proof. apply zfill_round_trip. vm_compute. reflexivity. Qed.

Lemma zfill4 (n : nat) :
  (n < 100 * 100)%nat ->
  String.length (zfill 4 n) = 4%nat /\ parse_nat (zfill 4 n) = n.
Proof. apply zfill_round_trip. vm_compute. reflexivity. Qed.

Lemma append_same_length (a a' b b' : string) :
  String.length a = String.length a' ->
  a +:+ b = a' +:+ b' -> a = a' /\ b = b'.
Proof.
  revert a'. induction a as [|x a IH]; intros [|y a'] Hlen H; simpl in *;
    try discriminate.
  - auto.
  - injection H as -> H. injection Hlen as Hlen.
    destruct (IH _ Hlen H) as [-> ->]. auto.
Qed.

Lemma append_cancel_l (a b c : string) : a +:+ b = a +:+ c -> b = c.
Proof.
  intros H. now destruct (append_same_length a a b c eq_refl H).
Qed.

Lemma zfill_inj (width bound a b : nat) :
  (forall n, (n < bound)%nat ->
             String.length (zfill width n) = width /\ parse_nat (zfill width n) = n) ->
  (a < bound)%nat -> (b < bound)%nat ->
  forall r r', zfill width a +:+ r = zfill width b +:+ r' -> a = b /\ r = r'.
Proof.
  intros Hrt Ha Hb r r' H.
  destruct (Hrt a Ha) as [Hla Hpa], (Hrt b Hb) as [Hlb Hpb].
  destruct (append_same_length _ _ _ _ (eq_trans Hla (eq_sym Hlb)) H) as [Hz Hr].
  split; [|exact Hr]. rewrite <- Hpa, <- Hpb. now rewrite Hz.
Qed.

Lemma strftime_inj (s t : datetime) :
  fits_format s -> fits_format t ->
  strftime_Ymd_HMS s = strftime_Ymd_HMS t -> same_second s t.
Proof.
  intros (Hy & Hm & Hd & Hh & Hmi & Hs) (Hy' & Hm' & Hd' & Hh' & Hmi' & Hs') H.
  unfold strftime_Ymd_HMS in H.
  apply (zfill_inj 4 (100 * 100) _ _ zfill4 Hy Hy') in H as [Ey H].
  apply (zfill_inj 2 100 _ _ zfill2 Hm Hm') in H as [Em H].
  apply (zfill_inj 2 100 _ _ zfill2 Hd Hd') in H as [Ed H].
  apply (append_cancel_l "_") in H.
  apply (zfill_inj 2 100 _ _ zfill2 Hh Hh') in H as [Eh H].
  apply (zfill_inj 2 100 _ _ zfill2 Hmi Hmi') in H as [Emi H].
  rewrite <- (append_empty_r (zfill 2 (second s))),
          <- (append_empty_r (zfill 2 (second t))) in H.
  apply (zfill_inj 2 100 _ _ zfill2 Hs Hs') in H as [Es _].
  repeat split; assumption.
Qed.

(** X6: for clock readings whose fields fit the format, two trips of the
    same user get the same trip_id exactly when the readings fall within
    the same second: readings in different seconds never collide. *)
Theorem trip_id_equal_iff_same_second (user_id : string)
    (t_id1 t_created1 t_id2 t_created2 : datetime)
    (trip_data1 trip_data2 : gmap string value) :
  fits_format t_id1 -> fits_format t_id2 ->
  trip_id (trip_document t_id1 t_created1 user_id trip_data1) =
  trip_id (trip_document t_id2 t_created2 user_id trip_data2) <->
  same_second t_id1 t_id2.
Proof.
  intros H1 H2. cbn [trip_document trip_id]. split.
  - intros H. apply append_cancel_l, (append_cancel_l "_") in H.
    now apply strftime_inj.
  - intros H. now rewrite (same_second_strftime _ _ H).
Qed.

Lemma trip_id_equal_iff_same_second_witness :
  trip_id (trip_document (noon 5 0) (noon 5 1) "u" paris_trip) <>
  trip_id (trip_document (noon 6 0) (noon 6 1) "u" paris_trip).
Proof.
  intros H.
  apply (trip_id_equal_iff_same_second "u" (noon 5 0) (noon 5 1) (noon 6 0) (noon 6 1))
    in H as (_ & _ & _ & _ & _ & Hs).
  - discriminate Hs.
  - unfold fits_format. cbn. lia.
  - unfold fits_format. cbn. lia.
Defined.

End TripIdFacts.

(* ===================================================================== *)
(** * Further properties: the store *)
(* ===================================================================== *)

Section StoreExtras.
Import PyStr Mongo TravelDatabase.

(** Unfolds the methods on a world given field by field, in both states of
    the server, and splits on what the store holds. *)
Ltac crunch w :=
  destruct w as [? ? ? ? [?|] ? ? ?];
  cbv [save_user_preferences save_trip_history get_trip_history
       save_agent_memory get_agent_memory get_user_preferences
       get_database_stats search_destinations destination_filter
       try_except bind ret raise print request fresh_oid
       insert_one replace_one_upsert find_one find_sort_limit find_limit
       count_documents list_collection_names];
  cbn; repeat (case_match; simplify_eq/=).

Lemma step_append_only (w w' : World) :
  step w w' ->
  trip_history w `prefix_of` trip_history w' /\
  agent_memory w `prefix_of` agent_memory w' /\
  (next_oid w <= next_oid w')%N.
Proof.
  intros Hstep. destruct Hstep; try (destruct w; cbn; repeat split; (reflexivity || lia));
    crunch w; repeat split; try reflexivity; try lia; try (now apply prefix_app_r).
Qed.

(** X7: trips and conversation records are append-only. Over any sequence
    of calls of the store's methods, interleaved with outages of the
    server, the trips and the conversations stored at the start are still
    there at the end, unchanged and in the same order, before whatever was
    added; no method deletes or rewrites one. *)
Theorem store_is_append_only (w w' : World) :
  rtc step w w' ->
  trip_history w `prefix_of` trip_history w' /\
  agent_memory w `prefix_of` agent_memory w'.
Proof.
  induction 1 as [w|w w1 w2 Hstep _ IH].
  - split; reflexivity.
  - destruct (step_append_only _ _ Hstep) as (Ht & Hm & _), IH as [Ht' Hm'].
    split; etransitivity; eassumption.
Qed.

Lemma store_is_append_only_witness :
  trip_history late_world `prefix_of`
  trip_history
    (snd (save_trip_history (noon 9 0) (noon 9 1) "u" rome_trip
            (snd (save_user_preferences (noon 8 0) (noon 8 1) "u" paris_trip
                    late_world)))).
Proof.
  apply store_is_append_only.
  eapply rtc_l; [apply step_save_user_preferences|].
  apply rtc_once, step_save_trip_history.
Defined.


Lemma insert_desc_perm {A} (key : A -> datetime) (d : A) (l : list A) :
  insert_desc key d l ≡ₚ d :: l.
Proof.
  induction l as [|x l IH]; simpl; [reflexivity|].
  destruct (Datetime.leb (key x) (key d)); [reflexivity|].
  rewrite IH. apply Permutation_swap.
Qed.

Lemma sort_desc_perm {A} (key : A -> datetime) (l : list A) :
  sort_desc key l ≡ₚ l.
Proof.
  induction l as [|x l IH]; simpl; [reflexivity|].
  now rewrite insert_desc_perm, IH.
Qed.

Lemma limit_docs_sublist {A} (n : Z) (l : list A) : limit_docs n l `sublist_of` l.
Proof.
  unfold limit_docs. destruct (n =? 0); [reflexivity | apply sublist_take].
Qed.

Lemma limit_docs_length {A} (n : Z) (l : list A) :
  n <> 0 -> (length (limit_docs n l) <= Z.abs_nat n)%nat.
Proof.
  intros Hn. unfold limit_docs. destruct (Z.eqb_spec n 0); [contradiction|].
  rewrite length_take. lia.
Qed.





Lemma replace_first_head {A} (p : A -> bool) (doc : A) (l l' : list (Stored A)) :
  replace_first p doc l = Some l' ->
  p doc = true ->
  exists oid, head (List.filter (fun d => p (body d)) l') =
              Some {| _id := oid; body := doc |}.
Proof.
  revert l'. induction l as [|d l IH]; intros l' H Hdoc; simpl in H; [discriminate|].
  destruct (p (body d)) eqn:Hp.
  - injection H as <-. exists (_id d). simpl. now rewrite Hdoc.
  - destruct (replace_first p doc l) as [l''|]; [|discriminate].
    injection H as <-. simpl. rewrite Hp. now apply IH.
Qed.

(** A filter that passes neither the replaced document nor the new one
    sees no difference. *)
Lemma replace_first_other {A} (p q : A -> bool) (doc : A) (l l' : list (Stored A)) :
  replace_first p doc l = Some l' ->
  q doc = false ->
  (forall a, p a = true -> q a = false) ->
  List.filter (fun d => q (body d)) l' = List.filter (fun d => q (body d)) l.
Proof.
  revert l'. induction l as [|d l IH]; intros l' H Hdoc Hpq; simpl in H; [discriminate|].
  destruct (p (body d)) eqn:Hp.
  - injection H as <-. simpl. now rewrite Hdoc, (Hpq _ Hp).
  - destruct (replace_first p doc l) as [l''|]; [|discriminate].
    injection H as <-. simpl. now rewrite (IH l'').
Qed.

Lemma get_user_preferences_ok (user_id : string) (w : World) :
  fault w = None ->
  get_user_preferences user_id w =
  (Return (option_map (fun d => pref_preferences (body d))
                      (head (preferences_of user_id w))), w).
Proof.
  intros Hfault. unfold preferences_of.
  destruct w; cbn in Hfault; subst.
  unfold get_user_preferences, try_except, bind, find_one, request. cbn.
  now destruct (head _).
Qed.

Lemma preferences_of_stdout (user_id : string) (out : list string) (w : World) :
  preferences_of user_id (set_stdout out w) = preferences_of user_id w.
Proof. now destruct w. Qed.

Lemma upserted_head (document : PreferencesDoc) (w : World) :
  exists oid,
    head (preferences_of (pref_user_id document) (upserted document w)) =
    Some {| _id := oid; body := document |}.
Proof.
  unfold upserted, preferences_of.
  destruct (replace_first _ _ _) as [docs|] eqn:Hrep.
  - destruct (replace_first_head _ _ _ _ Hrep) as [oid Hoid].
    + unfold has_user_id. apply String.eqb_refl.
    + exists oid. destruct w; exact Hoid.
  - apply replace_first_None in Hrep. exists (next_oid w).
    destruct w; cbn in *. rewrite List.filter_app, Hrep. cbn.
    unfold has_user_id. now rewrite String.eqb_refl.
Qed.

Lemma upserted_other_user (document : PreferencesDoc) (u : string) (w : World) :
  u <> pref_user_id document ->
  preferences_of u (upserted document w) = preferences_of u w.
Proof.
  intros Hne. unfold upserted, preferences_of.
  assert (Hdoc : has_user_id pref_user_id u document = false).
  { unfold has_user_id. apply String.eqb_neq. congruence. }
  destruct (replace_first _ _ _) as [docs|] eqn:Hrep.
  - replace (user_preferences (set_user_preferences docs w)) with docs
      by (destruct w; reflexivity).
    apply (replace_first_other _ _ _ _ _ Hrep Hdoc).
    intros a Ha. unfold has_user_id in *. apply String.eqb_eq in Ha.
    apply String.eqb_neq. congruence.
  - destruct w; cbn. rewrite List.filter_app. cbn. rewrite Hdoc. apply app_nil_r.
Qed.

Lemma upserted_fault (document : PreferencesDoc) (w : World) :
  fault (upserted document w) = fault w.
Proof. unfold upserted. destruct (replace_first _ _ _); now destruct w. Qed.

Lemma upserted_trips_memory (document : PreferencesDoc) (w : World) :
  trip_history (upserted document w) = trip_history w /\
  agent_memory (upserted document w) = agent_memory w.
Proof. unfold upserted. destruct (replace_first _ _ _); now destruct w. Qed.

(** X9: with the store in reach, in any state of the store, getPreferences
    right after upsertPreferences for the same user returns the mapping
    just written; the preferences every other user reads are what they
    were; trips and conversations are not touched. A user without a record
    reads None. *)
Theorem preferences_round_trip (w : World) (user_id : string)
    (prefs : gmap string value) (t1 t2 : datetime) :
  fault w = None ->
  let w' := snd (save_user_preferences t1 t2 user_id prefs w) in
  fst (get_user_preferences user_id w') = Return (Some prefs) /\
  (forall other, other <> user_id ->
     fst (get_user_preferences other w') = fst (get_user_preferences other w)) /\
  trip_history w' = trip_history w /\
  agent_memory w' = agent_memory w /\
  (forall other,
     (forall d, d ∈ user_preferences w -> pref_user_id (body d) <> other) ->
     fst (get_user_preferences other w) = Return None).
Proof.
  intros Hfault w'. subst w'.
  rewrite (save_user_preferences_ok _ _ _ _ _ Hfault). cbn [snd].
  set (doc := stored_preferences (preferences_document t1 t2 user_id prefs)).
  set (out := stdout w ++ _).
  assert (Hfault' : fault (set_stdout out (upserted doc w)) = None).
  { rewrite <- Hfault, <- (upserted_fault doc w). now destruct (upserted doc w). }
  split; [|split; [|split; [|split]]].
  - rewrite (get_user_preferences_ok _ _ Hfault'). cbn [fst].
    rewrite preferences_of_stdout.
    destruct (upserted_head doc w) as [oid Hoid].
    cbn [doc pref_user_id stored_preferences preferences_document] in Hoid.
    now rewrite Hoid.
  - intros other Hother.
    rewrite (get_user_preferences_ok _ _ Hfault'), (get_user_preferences_ok _ _ Hfault).
    cbn [fst]. rewrite preferences_of_stdout.
    now rewrite (upserted_other_user doc other w Hother).
  - destruct (upserted_trips_memory doc w) as [<- _]. now destruct (upserted doc w).
  - destruct (upserted_trips_memory doc w) as [_ <-]. now destruct (upserted doc w).
  - intros other Hnone. rewrite (get_user_preferences_ok _ _ Hfault). cbn [fst].
    unfold preferences_of.
    replace (List.filter _ (user_preferences w)) with (@nil (Stored PreferencesDoc));
      [reflexivity|].
    symmetry. induction (user_preferences w) as [|d l IH]; [reflexivity|].
    simpl. unfold has_user_id at 1.
    destruct (String.eqb_spec (pref_user_id (body d)) other) as [Heq|_].
    + exfalso. apply (Hnone d); [left | exact Heq].
    + apply IH. intros x Hx. apply Hnone. now right.
Qed.

Lemma preferences_round_trip_witness :
  fst (get_user_preferences "u"
         (snd (save_user_preferences (noon 1 0) (noon 1 1) "u" rome_trip late_world))) =
  Return (Some rome_trip).
Proof.
  apply (preferences_round_trip late_world "u" rome_trip (noon 1 0) (noon 1 1)).
  reflexivity.
Defined.


Lemma get_agent_memory_ok (user_id : string) (a : option string) (limit : Z)
    (w : World) :
  fault w = None ->
  get_agent_memory user_id a limit w =
  (Return (map stringify_id
             (limit_docs limit
                (sort_desc (fun d => timestamp (body d))
                   (List.filter (fun d => memory_query user_id a (body d))
                                (agent_memory w))))), w).
Proof. intros Hfault. destruct w; cbn in Hfault; subst; reflexivity. Qed.

(** X10: with the store in reach, listConversations returns stored
    conversations of the asked user only, newest first by timestamp, at
    most |limit| of them when limit is not 0; when an agent type is given
    and is not empty, only conversations of that type. An empty agent type
    filters nothing: it gives what no agent type gives. *)
Theorem list_conversations_filtered (w : World) (user_id : string)
    (a : option string) (limit : Z) :
  (fault w = None ->
   exists docs,
     get_agent_memory user_id a limit w = (Return (map stringify_id docs), w) /\
     (forall d, d ∈ docs ->
        d ∈ agent_memory w /\ mem_user_id (body d) = user_id /\
        (forall t, a = Some t -> t <> "" -> agent_type (body d) = t)) /\
     StronglySorted (descending (fun d => timestamp (body d))) docs /\
     (limit <> 0 -> (length docs <= Z.abs_nat limit)%nat)) /\
  get_agent_memory user_id (Some "") limit w = get_agent_memory user_id None limit w.
Proof.
  split; [|reflexivity].
  intros Hfault. rewrite (get_agent_memory_ok _ _ _ _ Hfault).
  eexists. split; [reflexivity|]. split; [|split].
  - intros d Hd.
    apply (sublist_subseteq _ _ (limit_docs_sublist _ _)) in Hd.
    rewrite sort_desc_perm in Hd.
    apply list_elem_of_In, List.filter_In in Hd as [Hd Hq].
    split; [now apply list_elem_of_In|].
    unfold memory_query, has_user_id in Hq. destruct a as [t|].
    + destruct (String.eqb_spec t "") as [->|Ht].
      * split; [now apply String.eqb_eq | intros t' [= <-] Hne; contradiction].
      * apply andb_true_iff in Hq as [Hu Ha]. split; [now apply String.eqb_eq|].
        intros t' [= <-] _. now apply String.eqb_eq.
    + split; [now apply String.eqb_eq | discriminate].
  - apply limit_docs_sorted, sort_desc_sorted.
  - apply limit_docs_length.
Qed.

Lemma list_conversations_filtered_witness :
  length (agent_memory conversation_world) = 4%nat /\
  exists docs,
    get_agent_memory "u" (Some "advisor") 1 conversation_world =
      (Return (map stringify_id docs), conversation_world) /\
    map stringify_id docs =
      [ {| id_str := str_oid 1%N;
           fields_of := {| mem_user_id := "u"; agent_type := "advisor";
                           conversation := "Beach or city?";
                           response := "Beach";
                           timestamp := noon 2 5000 |} |} ] /\
    (forall d, d ∈ docs ->
       mem_user_id (body d) = "u" /\ agent_type (body d) = "advisor") /\
    (length docs <= 1)%nat.
Proof.
  split; [reflexivity|].
  destruct (list_conversations_filtered conversation_world "u" (Some "advisor") 1)
    as [H _].
  destruct (H eq_refl) as (docs & Heq & Hin & _ & Hlen).
  exists docs. split; [exact Heq|]. split; [|split].
  - assert (Hrun : get_agent_memory "u" (Some "advisor") 1 conversation_world =
                   (Return [ {| id_str := str_oid 1%N;
                                fields_of :=
                                  {| mem_user_id := "u"; agent_type := "advisor";
                                     conversation := "Beach or city?";
                                     response := "Beach";
                                     timestamp := noon 2 5000 |} |} ],
                    conversation_world)) by reflexivity.
    rewrite Heq in Hrun. now injection Hrun.
  - intros d Hd. destruct (Hin d Hd) as (_ & Hu & Ha).
    split; [exact Hu | apply Ha; [reflexivity | discriminate]].
  - apply Hlen. discriminate.
Defined.

Lemma get_database_stats_ok (w : World) :
  fault w = None ->
  get_database_stats w =
  (Return (<["total_users" := VInt (Z.of_nat (length (user_preferences w)))]>
          (<["total_trips" := VInt (Z.of_nat (length (trip_history w)))]>
          (<["total_conversations" := VInt (Z.of_nat (length (agent_memory w)))]>
          (<["collections" := VList (map VStr (collection_names w))]>
          (<["connection_status" := VStr "Connected"]> ∅))))), w).
Proof. intros Hfault. destruct w; cbn in Hfault; subst; reflexivity. Qed.

(** X11: with the store in reach, the statistics report the number of
    documents of each collection and the status Connected, with no error
    entry; and a trip appended in between raises the reported number of
    trips by one and leaves the two other counts as they were. *)
Theorem stats_count_the_store (w : World) (t_id t_created : datetime)
    (user_id : string) (trip_data : gmap string value) :
  fault w = None ->
  exists before after,
    fst (get_database_stats w) = Return before /\
    fst (get_database_stats
           (snd (save_trip_history t_id t_created user_id trip_data w))) =
      Return after /\
    before !! "total_users" = Some (VInt (Z.of_nat (length (user_preferences w)))) /\
    before !! "total_trips" = Some (VInt (Z.of_nat (length (trip_history w)))) /\
    before !! "total_conversations" =
      Some (VInt (Z.of_nat (length (agent_memory w)))) /\
    before !! "connection_status" = Some (VStr "Connected") /\
    before !! "error" = None /\
    after !! "total_trips" = Some (VInt (Z.of_nat (length (trip_history w)) + 1)) /\
    after !! "total_users" = before !! "total_users" /\
    after !! "total_conversations" = before !! "total_conversations".
Proof.
  intros Hfault.
  rewrite (get_database_stats_ok _ Hfault), (save_trip_history_ok _ _ _ _ _ Hfault).
  rewrite get_database_stats_ok by (destruct w; exact Hfault).
  do 2 eexists. split; [reflexivity|]. split; [reflexivity|].
  destruct w as [ps ts ms oid flt names out calls].
  cbn [fst snd user_preferences trip_history agent_memory
       set_stdout set_trip_history set_next_oid].
  rewrite length_app, Nat2Z.inj_add. cbn [length Z.of_nat Pos.of_succ_nat].
  repeat split; reflexivity.
Qed.

Lemma stats_count_the_store_witness :
  exists after,
    fst (get_database_stats
           (snd (save_trip_history (noon 9 0) (noon 9 1) "u" rome_trip late_world))) =
      Return after /\
    after !! "total_trips" = Some (VInt 2).
Proof.
  destruct (stats_count_the_store late_world (noon 9 0) (noon 9 1) "u" rome_trip eq_refl)
    as (before & after & _ & Hafter & _ & _ & _ & _ & _ & Htrips & _).
  exists after. split; [exact Hafter | exact Htrips].
Defined.




(** X13: while the server is out of reach no method changes any of the
    three collections; each writes exactly one line naming the failure on
    the console, except the statistics, which write nothing. The two
    inserting saves have by then drawn the identifier of the document they
    could not send, and it is used up; nothing else in the world changes. *)
Theorem failure_changes_nothing_stored
    (regex_i : string -> option (string -> bool)) (w : World) (e : string) :
  fault w = Some e ->
  (forall t1 t2 u prefs,
     snd (save_user_preferences t1 t2 u prefs w) =
     set_stdout (stdout w ++ ["❌ Error saving preferences: " +:+ e]) w) /\
  (forall u,
     snd (get_user_preferences u w) =
     set_stdout (stdout w ++ ["❌ Error getting preferences: " +:+ e]) w) /\
  (forall t1 t2 u trip,
     snd (save_trip_history t1 t2 u trip w) =
     set_stdout (stdout w ++ ["❌ Error saving trip history: " +:+ e])
       (set_next_oid (next_oid w + 1)%N w)) /\
  (forall u limit,
     snd (get_trip_history u limit w) =
     set_stdout (stdout w ++ ["❌ Error getting trip history: " +:+ e]) w) /\
  (forall t u a c r,
     snd (save_agent_memory t u a c r w) =
     set_stdout (stdout w ++ ["❌ Error saving agent memory: " +:+ e])
       (set_next_oid (next_oid w + 1)%N w)) /\
  (forall u a limit,
     snd (get_agent_memory u a limit w) =
     set_stdout (stdout w ++ ["❌ Error getting agent memory: " +:+ e]) w) /\
  (forall q limit,
     snd (search_destinations regex_i q limit w) =
     set_stdout (stdout w ++ ["❌ Error searching destinations: " +:+ e]) w) /\
  snd (get_database_stats w) = w /\
  (forall w', step w w' ->
     user_preferences w' = user_preferences w /\
     trip_history w' = trip_history w /\
     agent_memory w' = agent_memory w).
Proof.
  intros Hfault.
  split; [|split; [|split; [|split; [|split; [|split; [|split; [|split]]]]]]];
    try (destruct w; cbn in Hfault; subst; intros; reflexivity).
  intros w' Hstep.
  destruct Hstep; destruct w; cbn in Hfault; subst; repeat split; reflexivity.
Qed.

Lemma failure_changes_nothing_stored_witness :
  trip_history
    (snd (save_trip_history (noon 9 0) (noon 9 1) "u" rome_trip
            (set_fault (Some "ServerSelectionTimeoutError") late_world))) =
  trip_history late_world.
Proof.
  destruct (failure_changes_nothing_stored no_regex
              (set_fault (Some "ServerSelectionTimeoutError") late_world)
              "ServerSelectionTimeoutError" eq_refl) as (_ & _ & -> & _).
  reflexivity.
Defined.

End StoreExtras.

(* ===================================================================== *)
(** * Further properties: the scheduler *)
(* ===================================================================== *)

Section SchedulerExtras.
Import PyStr Mongo TravelDatabase TravelScheduler.

Lemma occurs_in_head (k rest : string) : occurs_in k (k +:+ rest).
Proof. now exists EmptyString, rest. Qed.

Lemma occurs_in_last (k : string) : occurs_in k k.
Proof. exists EmptyString, EmptyString. cbn. now rewrite append_empty_r. Qed.

Lemma occurs_in_skip (k p rest : string) : occurs_in k rest -> occurs_in k (p +:+ rest).
Proof. intros (a & b & ->). exists (p +:+ a), b. now rewrite append_assoc. Qed.

(** Finds a piece in a text written as a chain of pieces. *)
Ltac find_piece :=
  repeat first [ apply occurs_in_head | apply occurs_in_skip ].

(** X14: the prompt of each planning operation carries every text the
    caller passed, as written: planTrip the destination, both dates, the
    preferences and the budget; recommendDestinations the preferences, the
    season, the budget and the duration; travelTips the destination and
    the travel style; optimizeItinerary the current itinerary and the
    feedback. *)
Theorem prompts_carry_the_inputs (a b c d e : string) :
  (occurs_in a (plan_complete_trip_prompt a b c d e) /\
   occurs_in b (plan_complete_trip_prompt a b c d e) /\
   occurs_in c (plan_complete_trip_prompt a b c d e) /\
   occurs_in d (plan_complete_trip_prompt a b c d e) /\
   occurs_in e (plan_complete_trip_prompt a b c d e)) /\
  (occurs_in a (get_destination_recommendations_prompt a b c d) /\
   occurs_in b (get_destination_recommendations_prompt a b c d) /\
   occurs_in c (get_destination_recommendations_prompt a b c d) /\
   occurs_in d (get_destination_recommendations_prompt a b c d)) /\
  (occurs_in a (get_travel_tips_prompt a b) /\
   occurs_in b (get_travel_tips_prompt a b)) /\
  (occurs_in a (optimize_itinerary_prompt a b) /\
   occurs_in b (optimize_itinerary_prompt a b)).
Proof.
  unfold plan_complete_trip_prompt, get_destination_recommendations_prompt,
    get_travel_tips_prompt, optimize_itinerary_prompt.
  repeat split; find_piece.
Qed.


Lemma same_store_refl (w : World) : same_store w w.
Proof. now repeat split. Qed.

Lemma returns_bind {A B} (m : M A) (k : A -> M B) (w : World) :
  returns m w -> (forall a w', returns (k a) w') -> returns (bind m k) w.
Proof.
  intros [a Ha] Hk. unfold returns, bind in *.
  destruct (m w) as [[a'|e] w']; cbn in Ha; [apply Hk | discriminate].
Qed.

Lemma when_connected_returns (self : TravelScheduler) (writes : M unit) (w : World) :
  (forall w', returns writes w') -> returns (when_connected self writes) w.
Proof.
  intros H. unfold when_connected. destruct (db self); [apply H | now exists tt].
Qed.

(** The common shape of the operations: ask one agent, store what there is
    to store when a store is connected, hand the answer back. *)
Lemma ask_then_store (self : TravelScheduler) (agent : Agent) (prompt : string)
    (writes : string -> M unit) (w : World) :
  (forall content w', returns (writes content) w') ->
  let result :=
    (let* content := agent_run agent prompt in
     run (when_connected self (writes content)) then ret content) w in
  fst result = respond agent prompt /\
  (forall e, respond agent prompt = Raise e ->
             snd result = set_agent_calls (agent_calls w ++ [(agent_name agent, prompt)]) w) /\
  (db self = None ->
   snd result = set_agent_calls (agent_calls w ++ [(agent_name agent, prompt)]) w).
Proof.
  intros Hwrites result. subst result. unfold bind, agent_run.
  destruct (respond agent prompt) as [content|e] eqn:Hresp.
  - destruct (when_connected_returns self (writes content)
                (set_agent_calls (agent_calls w ++ [(agent_name agent, prompt)]) w)
                (Hwrites content)) as [[] Hret].
    destruct (when_connected self (writes content) _) as [[[]|e'] w'] eqn:Hw;
      cbn in Hret; [|discriminate].
    split; [reflexivity|]. split; [discriminate|].
    intros Hdb. unfold when_connected in Hw. rewrite Hdb in Hw.
    now injection Hw as <-.
  - split; [reflexivity|]. split; [reflexivity|]. reflexivity.
Qed.

Lemma save_returns_unit {A} (m : M A) (k : M unit) (w : World) :
  (forall w', returns m w') -> (forall w', returns k w') ->
  returns (run m then k) w.
Proof. intros Hm Hk. apply returns_bind; [apply Hm | intros _ w'; apply Hk]. Qed.

Lemma saves_never_raise :
  (forall t1 t2 u trip w, returns (save_trip_history t1 t2 u trip) w) /\
  (forall t1 t2 u prefs w, returns (save_user_preferences t1 t2 u prefs) w) /\
  (forall t u a c r w, returns (save_agent_memory t u a c r) w).
Proof.
  repeat split; intros;
    destruct (methods_never_raise no_regex w) as (H1 & _ & H3 & _ & H5 & _); auto.
Qed.

(** X15: persistence is best effort. What planTrip, recommendDestinations,
    travelTips and optimizeItinerary hand back is exactly what the agent
    answered to the prompt (or the exception of the agent), whether a
    store is connected or not and whether its writes succeed or fail; the
    prompt goes to the itinerary agent for planTrip and
    optimizeItinerary, to the advisor agent for the two others. *)
Theorem operations_return_the_agent_answer (self : TravelScheduler)
    (t1 t2 t3 : datetime) (a b c d e : string) (w : World) :
  fst (plan_complete_trip self t1 t2 t3 a b c d e w) =
    respond (itinerary_agent self) (plan_complete_trip_prompt a b c d e) /\
  fst (get_destination_recommendations self t1 t2 t3 a b c d w) =
    respond (advisor_agent self) (get_destination_recommendations_prompt a b c d) /\
  fst (get_travel_tips self t1 a b w) =
    respond (advisor_agent self) (get_travel_tips_prompt a b) /\
  fst (optimize_itinerary self t1 a b w) =
    respond (itinerary_agent self) (optimize_itinerary_prompt a b).
Proof.
  destruct saves_never_raise as (Htrip & Hprefs & Hmem).
  repeat split.
  - apply (ask_then_store self (itinerary_agent self) _
             (fun content =>
                run (save_trip_history t1 t2 (user_id self) _) then
                run (save_agent_memory t3 (user_id self) "itinerary" _ content) then
                ret tt)).
    intros content w'. apply save_returns_unit; [apply Htrip|].
    intros w''. apply save_returns_unit; [apply Hmem | now exists tt].
  - apply (ask_then_store self (advisor_agent self) _
             (fun content =>
                run (save_user_preferences t1 t2 (user_id self) _) then
                run (save_agent_memory t3 (user_id self) "advisor" _ content) then
                ret tt)).
    intros content w'. apply save_returns_unit; [apply Hprefs|].
    intros w''. apply save_returns_unit; [apply Hmem | now exists tt].
  - apply (ask_then_store self (advisor_agent self) _
             (fun content =>
                run (save_agent_memory t1 (user_id self) "advisor" _ content) then
                ret tt)).
    intros content w'. apply save_returns_unit; [apply Hmem | now exists tt].
  - apply (ask_then_store self (itinerary_agent self) _
             (fun content =>
                run (save_agent_memory t1 (user_id self) "itinerary" _ content) then
                ret tt)).
    intros content w'. apply save_returns_unit; [apply Hmem | now exists tt].
Qed.


Lemma save_agent_memory_ok (t : datetime) (u a c r : string) (w : World) :
  fault w = None ->
  save_agent_memory t u a c r w =
  (Return true,
   set_agent_memory
     (agent_memory w ++
        [{| _id := next_oid w;
            body := {| mem_user_id := u; agent_type := a; conversation := c;
                       response := r; timestamp := Datetime.to_milliseconds t |} |}])
     (set_next_oid (next_oid w + 1)%N w)).
Proof. intros Hfault. destruct w; cbn in Hfault; subst; reflexivity. Qed.

Lemma planned_trip_document (self : TravelScheduler) (t1 t2 : datetime)
    (a b c d e content : string) :
  stored_trip
    (trip_document t1 t2 (user_id self)
       (<["destination" := VStr a]>
        (<["start_date" := VStr b]>
        (<["end_date" := VStr c]>
        (<["preferences" := VStr d]>
        (<["budget" := VStr e]>
        (<["itinerary" := VStr content]> ∅))))))) =
  planned_trip self t1 t2 a b c d e content.
Proof. reflexivity. Qed.

Lemma get_trip_history_reads (u : string) (limit : Z) (w w' : World) :
  fault w' = fault w -> trip_history w' = trip_history w ->
  fst (get_trip_history u limit w') = fst (get_trip_history u limit w).
Proof.
  intros Hf Ht. destruct (fault w) as [err|] eqn:Hfault.
  - now rewrite (get_trip_history_fault u limit w err Hfault),
      (get_trip_history_fault u limit w' err Hf).
  - rewrite (get_trip_history_ok u limit w Hfault), (get_trip_history_ok u limit w' Hf).
    now rewrite Ht.
Qed.

(** X16: planTrip with a store connected and in reach, once the itinerary
    agent has answered: the trip history gains exactly one record, holding
    the destination, the dates, the preferences and the budget the caller
    passed and the answer as itinerary; the conversation log gains exactly
    one record of type "itinerary" holding the prompt and the answer; the
    preferences are not touched; and when the clock reading stored as
    created_at, cut to the millisecond, is later than the created_at of
    every stored trip of the user, listTrips with limit 1 right after
    returns the trip just planned. Datetimes are stored cut to the
    millisecond. *)
Theorem plan_trip_stores_the_trip (self : TravelScheduler) (h : Database)
    (t1 t2 t3 : datetime) (a b c d e content : string) (w : World) :
  db self = Some h ->
  fault w = None ->
  respond (itinerary_agent self) (plan_complete_trip_prompt a b c d e) = Return content ->
  let w' := snd (plan_complete_trip self t1 t2 t3 a b c d e w) in
  trip_history w' =
    trip_history w ++
      [{| _id := next_oid w; body := planned_trip self t1 t2 a b c d e content |}] /\
  agent_memory w' =
    agent_memory w ++
      [{| _id := (next_oid w + 1)%N;
          body := {| mem_user_id := user_id self; agent_type := "itinerary";
                     conversation := plan_complete_trip_prompt a b c d e;
                     response := content;
                     timestamp := Datetime.to_milliseconds t3 |} |}] /\
  user_preferences w' = user_preferences w /\
  (clock_ahead_of_trips w (user_id self) t2 ->
   fst (get_trip_history (user_id self) 1 w') =
   Return [ {| id_str := str_oid (next_oid w);
               fields_of := planned_trip self t1 t2 a b c d e content |} ]).
Proof.
  intros Hdb Hfault Hresp w'.
  assert (Hw' : w' =
    set_agent_memory
      (agent_memory w ++
         [{| _id := (next_oid w + 1)%N;
             body := {| mem_user_id := user_id self; agent_type := "itinerary";
                        conversation := plan_complete_trip_prompt a b c d e;
                        response := content;
                     timestamp := Datetime.to_milliseconds t3 |} |}])
      (set_next_oid (next_oid w + 1 + 1)%N
         (snd (save_trip_history t1 t2 (user_id self)
                 (<["destination" := VStr a]>
                  (<["start_date" := VStr b]>
                  (<["end_date" := VStr c]>
                  (<["preferences" := VStr d]>
                  (<["budget" := VStr e]>
                  (<["itinerary" := VStr content]> ∅))))))
                 (set_agent_calls
                    (agent_calls w ++
                       [(agent_name (itinerary_agent self),
                         plan_complete_trip_prompt a b c d e)]) w))))).
  { subst w'. unfold plan_complete_trip, bind, agent_run, when_connected.
    rewrite Hresp, Hdb.
    rewrite save_trip_history_ok by (destruct w; exact Hfault).
    rewrite save_agent_memory_ok by (destruct w; exact Hfault).
    destruct w; reflexivity. }
  rewrite save_trip_history_ok in Hw' by (destruct w; exact Hfault).
  cbn [snd] in Hw'. rewrite planned_trip_document in Hw'.
  split; [|split; [|split]].
  - rewrite Hw'. destruct w; reflexivity.
  - rewrite Hw'. destruct w; reflexivity.
  - rewrite Hw'. destruct w; reflexivity.
  - intros Hclock.
    destruct (append_then_list_one_ok w t1 t2 (user_id self)
                (<["destination" := VStr a]>
                 (<["start_date" := VStr b]>
                 (<["end_date" := VStr c]>
                 (<["preferences" := VStr d]>
                 (<["budget" := VStr e]>
                 (<["itinerary" := VStr content]> ∅))))))
                Hfault Hclock) as [_ Hlist].
    rewrite planned_trip_document in Hlist. rewrite <- Hlist.
    apply get_trip_history_reads.
    + rewrite Hw', save_trip_history_ok by exact Hfault. destruct w; reflexivity.
    + rewrite Hw', save_trip_history_ok by exact Hfault. destruct w; reflexivity.
Qed.


Lemma plan_trip_stores_the_trip_witness :
  fst (get_trip_history "default_user" 1
         (snd (plan_complete_trip echo_scheduler (noon 5 0) (noon 5 1900) (noon 5 2000)
                 "Paris, France" "2025-06-01" "2025-06-07" "museums" "moderate"
                 returning_world))) =
  Return [ {| id_str := str_oid 1%N;
              fields_of :=
                planned_trip echo_scheduler (noon 5 0) (noon 5 1900)
                  "Paris, France" "2025-06-01" "2025-06-07" "museums" "moderate"
                  ("TravelItineraryPlanner" +:+ ": " +:+
                   plan_complete_trip_prompt "Paris, France" "2025-06-01"
                     "2025-06-07" "museums" "moderate") |} ].
Proof.
  apply (plan_trip_stores_the_trip echo_scheduler
           {| connection_string := "mongodb://localhost:27017" |}
           (noon 5 0) (noon 5 1900) (noon 5 2000)
           "Paris, France" "2025-06-01" "2025-06-07" "museums" "moderate" _
           returning_world eq_refl eq_refl eq_refl).
  intros d Hd _. apply list_elem_of_In in Hd. vm_compute in Hd.
  destruct Hd as [<-|[]]. reflexivity.
Defined.

Lemma get_user_preferences_fault (u : string) (w : World) (e : string) :
  fault w = Some e -> fst (get_user_preferences u w) = Return None.
Proof. intros Hfault. destruct w; cbn in Hfault; subst; reflexivity. Qed.

Lemma get_user_preferences_reads (u : string) (w w' : World) :
  fault w' = fault w -> user_preferences w' = user_preferences w ->
  fst (get_user_preferences u w') = fst (get_user_preferences u w).
Proof.
  intros Hf Hp. destruct (fault w) as [e|] eqn:Hfault.
  - now rewrite (get_user_preferences_fault u w e Hfault),
      (get_user_preferences_fault u w' e Hf).
  - rewrite (get_user_preferences_ok u w Hfault), (get_user_preferences_ok u w' Hf).
    unfold preferences_of. now rewrite Hp.
Qed.

(** X17: recommendDestinations with a store connected and in reach, once
    the advisor agent has answered: getPreferences for the scheduler's user
    then returns the mapping of the four texts the caller passed, under the
    keys preferences, season, budget and duration, whatever was stored for
    the user before; the conversation log gains exactly one record of type
    "advisor" holding the prompt and the answer; the trips are not
    touched. *)
Theorem recommendations_store_the_preferences (self : TravelScheduler) (h : Database)
    (t1 t2 t3 : datetime) (a b c d content : string) (w : World) :
  db self = Some h ->
  fault w = None ->
  respond (advisor_agent self) (get_destination_recommendations_prompt a b c d) =
    Return content ->
  let w' := snd (get_destination_recommendations self t1 t2 t3 a b c d w) in
  fst (get_user_preferences (user_id self) w') =
    Return (Some (recommendation_preferences a b c d)) /\
  recommendation_preferences a b c d !! "preferences" = Some (VStr a) /\
  recommendation_preferences a b c d !! "season" = Some (VStr b) /\
  recommendation_preferences a b c d !! "budget" = Some (VStr c) /\
  recommendation_preferences a b c d !! "duration" = Some (VStr d) /\
  (exists oid,
     agent_memory w' =
       agent_memory w ++
         [{| _id := oid;
             body := {| mem_user_id := user_id self; agent_type := "advisor";
                        conversation := get_destination_recommendations_prompt a b c d;
                        response := content;
                     timestamp := Datetime.to_milliseconds t3 |} |}]) /\
  trip_history w' = trip_history w.
Proof.
  intros Hdb Hfault Hresp w'.
  set (prompt := get_destination_recommendations_prompt a b c d) in *.
  set (doc := stored_preferences
                (preferences_document t1 t2 (user_id self)
                   (recommendation_preferences a b c d))).
  set (w0 := set_agent_calls (agent_calls w ++ [(agent_name (advisor_agent self), prompt)]) w).
  assert (Hfault0 : fault w0 = None) by (destruct w; exact Hfault).
  set (w1 := set_stdout (stdout w0 ++ ["✅ Saved preferences for user: " +:+ user_id self])
               (upserted doc w0)).
  assert (Hfault1 : fault w1 = None).
  { subst w1. rewrite <- Hfault0, <- (upserted_fault doc w0).
    now destruct (upserted doc w0). }
  assert (Hw' : w' =
    set_agent_memory
      (agent_memory w1 ++
         [{| _id := next_oid w1;
             body := {| mem_user_id := user_id self; agent_type := "advisor";
                        conversation := prompt;
                        response := content;
                     timestamp := Datetime.to_milliseconds t3 |} |}])
      (set_next_oid (next_oid w1 + 1)%N w1)).
  { subst w'. unfold get_destination_recommendations, bind, agent_run, when_connected.
    fold prompt. rewrite Hresp, Hdb. fold w0.
    change (<["preferences":=VStr a]> _) with (recommendation_preferences a b c d).
    rewrite (save_user_preferences_ok _ _ _ _ _ Hfault0). fold doc. fold w1.
    now rewrite (save_agent_memory_ok _ _ _ _ _ _ Hfault1). }
  destruct (upserted_trips_memory doc w0) as [Htrips Hmem].
  split; [|repeat split].
  - transitivity (fst (get_user_preferences (user_id self) (upserted doc w0))).
    + apply get_user_preferences_reads.
      * rewrite Hw'. transitivity (fault w1); [destruct w1; reflexivity|].
        subst w1. destruct (upserted doc w0); reflexivity.
      * rewrite Hw'. transitivity (user_preferences w1); [destruct w1; reflexivity|].
        subst w1. destruct (upserted doc w0); reflexivity.
    + rewrite get_user_preferences_ok by (now rewrite upserted_fault).
      destruct (upserted_head doc w0) as [oid Hoid].
      cbn [doc pref_user_id stored_preferences preferences_document fst] in *. now rewrite Hoid.
  - exists (next_oid w1). rewrite Hw'.
    assert (Hm1 : agent_memory w1 = agent_memory w).
    { subst w1. transitivity (agent_memory (upserted doc w0)).
      - destruct (upserted doc w0); reflexivity.
      - rewrite Hmem. destruct w; reflexivity. }
    rewrite <- Hm1. destruct w1; reflexivity.
  - rewrite Hw'. transitivity (trip_history w1); [destruct w1; reflexivity|].
    subst w1. transitivity (trip_history (upserted doc w0)).
    + destruct (upserted doc w0); reflexivity.
    + rewrite Htrips. destruct w; reflexivity.
Qed.

Lemma recommendations_store_the_preferences_witness :
  fst (get_user_preferences "default_user"
         (snd (get_destination_recommendations echo_scheduler
                 (noon 9 0) (noon 9 1) (noon 9 2)
                 "beaches" "summer" "budget" "1 week" late_world))) =
  Return (Some (recommendation_preferences "beaches" "summer" "budget" "1 week")).
Proof.
  apply (recommendations_store_the_preferences echo_scheduler
           {| connection_string := "mongodb://localhost:27017" |}
           (noon 9 0) (noon 9 1) (noon 9 2)
           "beaches" "summer" "budget" "1 week" _ late_world eq_refl eq_refl eq_refl).
Defined.


(** X18: a chat with a store connected and in reach is logged, once the
    agent has answered, as exactly one conversation record holding the
    message, the answer and the agent type as the caller gave it, also
    when that type names no agent and the advisor answered; trips and
    preferences are not touched. *)
Theorem chat_logs_under_the_given_type (self : TravelScheduler) (h : Database)
    (now : datetime) (message given_type content : string) (w : World) :
  db self = Some h ->
  fault w = None ->
  respond (select_agent self given_type) message = Return content ->
  let w' := snd (chat_with_agent self now message given_type w) in
  agent_memory w' =
    agent_memory w ++
      [{| _id := next_oid w;
          body := {| mem_user_id := user_id self; agent_type := given_type;
                     conversation := message; response := content;
                     timestamp := Datetime.to_milliseconds now |} |}] /\
  trip_history w' = trip_history w /\
  user_preferences w' = user_preferences w.
Proof.
  intros Hdb Hfault Hresp w'. subst w'.
  unfold chat_with_agent, bind, agent_run. rewrite Hresp, Hdb.
  rewrite save_agent_memory_ok by (destruct w; exact Hfault).
  destruct w; repeat split; reflexivity.
Qed.

Lemma chat_logs_under_the_given_type_witness :
  map (fun d => agent_type (body d))
      (agent_memory
         (snd (chat_with_agent echo_scheduler (noon 0 0) "Where next?" "concierge"
                 empty_world))) = ["concierge"].
Proof.
  destruct (chat_logs_under_the_given_type echo_scheduler
              {| connection_string := "mongodb://localhost:27017" |}
              (noon 0 0) "Where next?" "concierge" _ empty_world
              eq_refl eq_refl eq_refl) as (-> & _).
  reflexivity.
Defined.

(** X19: travelTips and optimizeItinerary never write a trip or a
    preference record, whatever the agent and the store do; with a store
    connected and in reach, once the agent has answered, each adds exactly
    one conversation record holding the prompt and the answer, of type
    "advisor" for travelTips and "itinerary" for optimizeItinerary. *)
Theorem tips_and_optimize_only_log (self : TravelScheduler) (t : datetime)
    (a b : string) (w : World) :
  let tips := snd (get_travel_tips self t a b w) in
  let optimized := snd (optimize_itinerary self t a b w) in
  trip_history tips = trip_history w /\
  user_preferences tips = user_preferences w /\
  trip_history optimized = trip_history w /\
  user_preferences optimized = user_preferences w /\
  (forall h content,
     db self = Some h -> fault w = None ->
     respond (advisor_agent self) (get_travel_tips_prompt a b) = Return content ->
     agent_memory tips =
       agent_memory w ++
         [{| _id := next_oid w;
             body := {| mem_user_id := user_id self; agent_type := "advisor";
                        conversation := get_travel_tips_prompt a b;
                        response := content;
                        timestamp := Datetime.to_milliseconds t |} |}]) /\
  (forall h content,
     db self = Some h -> fault w = None ->
     respond (itinerary_agent self) (optimize_itinerary_prompt a b) = Return content ->
     agent_memory optimized =
       agent_memory w ++
         [{| _id := next_oid w;
             body := {| mem_user_id := user_id self; agent_type := "itinerary";
                        conversation := optimize_itinerary_prompt a b;
                        response := content;
                        timestamp := Datetime.to_milliseconds t |} |}]).
Proof.
  intros tips optimized. subst tips optimized.
  unfold get_travel_tips, optimize_itinerary, bind, agent_run, when_connected.
  split; [|split; [|split; [|split; [|split]]]].
  - destruct (respond _ _); destruct (db self);
      destruct w as [ps ts ms oid [err|] names out calls]; reflexivity.
  - destruct (respond _ _); destruct (db self);
      destruct w as [ps ts ms oid [err|] names out calls]; reflexivity.
  - destruct (respond _ _); destruct (db self);
      destruct w as [ps ts ms oid [err|] names out calls]; reflexivity.
  - destruct (respond _ _); destruct (db self);
      destruct w as [ps ts ms oid [err|] names out calls]; reflexivity.
  - intros h content Hdb Hfault Hresp. rewrite Hresp, Hdb.
    rewrite save_agent_memory_ok by (destruct w; exact Hfault).
    destruct w; reflexivity.
  - intros h content Hdb Hfault Hresp. rewrite Hresp, Hdb.
    rewrite save_agent_memory_ok by (destruct w; exact Hfault).
    destruct w; reflexivity.
Qed.

Lemma tips_and_optimize_only_log_witness :
  length (agent_memory (snd (get_travel_tips echo_scheduler (noon 0 0)
                               "Lisbon" "slow travel" empty_world))) = 1%nat.
Proof.
  destruct (tips_and_optimize_only_log echo_scheduler (noon 0 0)
              "Lisbon" "slow travel" empty_world) as (_ & _ & _ & _ & H & _).
  rewrite (H {| connection_string := "mongodb://localhost:27017" |} _
             eq_refl eq_refl eq_refl).
  reflexivity.
Defined.











End SchedulerExtras.

(* ===================================================================== *)
(** * Further properties: the environment check *)
(* ===================================================================== *)

Section ConfigExtras.
Import PyStr Config.

(** Brings a chain of [print]s on a world given field by field into the
    form of one list appended to the console. *)
Ltac console :=
  cbn [fst snd stdout set_stdout]; rewrite <- ?app_assoc; cbn [app].

Lemma check_env_all_present (env : Environment) (gemini_key weather_key : string)
    (w : World) :
  dotenv_file_exists env = true ->
  GEMINI_API_KEY env = Some gemini_key -> gemini_key <> "" ->
  OPENWEATHER_API_KEY env = Some weather_key -> weather_key <> "" ->
  check_env_configuration env w =
  (Return true,
   set_stdout
     (stdout w ++
        [ "🔍 Checking Environment Configuration...";
          repeat_string "-" 40;
          "✅ .env file found";
          "✅ GEMINI_API_KEY loaded (length: "
            +:+ str_nat (String.length gemini_key) +:+ ")";
          (if startswith "AI" gemini_key && (30 <? String.length gemini_key)%nat
           then "✅ Gemini API key format appears valid"
           else "⚠️ Gemini API key format may be incorrect");
          "✅ OPENWEATHER_API_KEY loaded (length: "
            +:+ str_nat (String.length weather_key) +:+ ")";
          (if (String.length weather_key =? 32)%nat
           then "✅ OpenWeather API key format appears valid"
           else "⚠️ OpenWeather API key format may be incorrect (should be 32 characters)");
          WeatherTool.nl +:+ "✅ Environment configuration check complete!" ]) w).
Proof.
  intros Hfile Hg Hgne Hk Hkne.
  destruct env as [file g k]; cbn in Hfile, Hg, Hk; subst.
  destruct gemini_key as [|c1 g]; [contradiction|].
  destruct weather_key as [|c2 k]; [contradiction|].
  destruct w as [ps ts ms oid flt names out calls].
  unfold check_env_configuration, bind, print, ret.
  cbn [dotenv_file_exists GEMINI_API_KEY OPENWEATHER_API_KEY if_set].
  console.
  destruct (startswith "AI" (String c1 g) && (30 <? String.length (String c1 g))%nat);
    console;
    destruct (String.length (String c2 k) =? 32)%nat; console; reflexivity.
Qed.

Lemma check_env_something_missing (env : Environment) (w : World) :
  dotenv_file_exists env = false \/
  if_set (GEMINI_API_KEY env) = None \/
  if_set (OPENWEATHER_API_KEY env) = None ->
  exists lines,
    check_env_configuration env w = (Return false, set_stdout (stdout w ++ lines) w).
Proof.
  intros Hmissing.
  destruct env as [file g k]; cbn in Hmissing.
  destruct w as [ps ts ms oid flt names out calls].
  unfold check_env_configuration, bind, print, ret.
  cbn [dotenv_file_exists GEMINI_API_KEY OPENWEATHER_API_KEY].
  destruct file; [|console; eexists; reflexivity].
  destruct (if_set g) as [gemini_key|] eqn:Eg; [|console; eexists; reflexivity].
  destruct (if_set k) as [weather_key|] eqn:Ek.
  { destruct Hmissing as [H|[H|H]]; discriminate. }
  console.
  destruct (startswith "AI" gemini_key && (30 <? String.length gemini_key)%nat);
    console; eexists; reflexivity.
Qed.

Lemma if_set_Some (key : option string) :
  (exists k, key = Some k /\ k <> "") \/ if_set key = None.
Proof.
  destruct key as [[|c k]|]; [right | left | right]; try reflexivity.
  exists (String c k). split; [reflexivity | discriminate].
Qed.

Lemma if_set_None (key : option string) (k : string) :
  key = Some k -> k <> "" -> if_set key <> None.
Proof. intros -> Hne. destruct k; [contradiction | discriminate]. Qed.

(** X22: the environment check returns True exactly when the file .env
    exists and both keys are set and not empty, and False otherwise; it
    never raises and touches nothing but the console. The shape of a key
    is only commented on: with everything present the console shows, for
    a Gemini key that does not start with "AI" or has at most 30
    characters and for a weather key that does not have 32 characters, a
    warning instead of a confirmation, and the result is True all the
    same. *)
Theorem env_check_needs_presence_only (env : Environment) (w : World) :
  let result := check_env_configuration env w in
  (fst result = Return true \/ fst result = Return false) /\
  (fst result = Return true <->
   dotenv_file_exists env = true /\
   (exists k, GEMINI_API_KEY env = Some k /\ k <> "") /\
   (exists k, OPENWEATHER_API_KEY env = Some k /\ k <> "")) /\
  (exists lines, snd result = set_stdout (stdout w ++ lines) w) /\
  (forall gemini_key weather_key,
     dotenv_file_exists env = true ->
     GEMINI_API_KEY env = Some gemini_key -> gemini_key <> "" ->
     OPENWEATHER_API_KEY env = Some weather_key -> weather_key <> "" ->
     fst result = Return true /\
     stdout (snd result) =
     stdout w ++
       [ "🔍 Checking Environment Configuration...";
         repeat_string "-" 40;
         "✅ .env file found";
         "✅ GEMINI_API_KEY loaded (length: "
           +:+ str_nat (String.length gemini_key) +:+ ")";
         (if startswith "AI" gemini_key && (30 <? String.length gemini_key)%nat
          then "✅ Gemini API key format appears valid"
          else "⚠️ Gemini API key format may be incorrect");
         "✅ OPENWEATHER_API_KEY loaded (length: "
           +:+ str_nat (String.length weather_key) +:+ ")";
         (if (String.length weather_key =? 32)%nat
          then "✅ OpenWeather API key format appears valid"
          else "⚠️ OpenWeather API key format may be incorrect (should be 32 characters)");
         WeatherTool.nl +:+ "✅ Environment configuration check complete!" ]).
Proof.
  intros result. subst result.
  assert (Hcases :
    (dotenv_file_exists env = true /\
     (exists k, GEMINI_API_KEY env = Some k /\ k <> "") /\
     (exists k, OPENWEATHER_API_KEY env = Some k /\ k <> "")) \/
    (dotenv_file_exists env = false \/
     if_set (GEMINI_API_KEY env) = None \/
     if_set (OPENWEATHER_API_KEY env) = None)).
  { destruct (dotenv_file_exists env); [|right; now left].
    destruct (if_set_Some (GEMINI_API_KEY env)) as [Hg|Hg]; [|right; right; now left].
    destruct (if_set_Some (OPENWEATHER_API_KEY env)) as [Hk|Hk];
      [left; auto | right; right; now right]. }
  destruct Hcases as [(Hfile & (g & Hg & Hgne) & (k & Hk & Hkne)) | Hmissing].
  - pose proof (check_env_all_present env g k w Hfile Hg Hgne Hk Hkne) as Heq.
    rewrite Heq. cbn [fst snd].
    split; [now left|]. split; [|split].
    + split; [intros _ | reflexivity]. eauto 10.
    + eexists. reflexivity.
    + intros g' k' _ Hg' _ Hk' _. rewrite Hg in Hg'. rewrite Hk in Hk'.
      injection Hg' as <-. injection Hk' as <-.
      split; [reflexivity | now destruct w].
  - destruct (check_env_something_missing env w Hmissing) as [lines Heq].
    rewrite Heq. cbn [fst snd].
    split; [now right|]. split; [|split].
    + split; [discriminate|].
      intros (Hfile & (g & Hg & Hgne) & (k & Hk & Hkne)).
      destruct Hmissing as [H|[H|H]].
      * congruence.
      * now apply (if_set_None _ _ Hg Hgne) in H.
      * now apply (if_set_None _ _ Hk Hkne) in H.
    + now exists lines.
    + intros g k Hfile Hg Hgne Hk Hkne. exfalso.
      destruct Hmissing as [H|[H|H]].
      * congruence.
      * now apply (if_set_None _ _ Hg Hgne) in H.
      * now apply (if_set_None _ _ Hk Hkne) in H.
Qed.

Lemma env_check_needs_presence_only_witness :
  fst (check_env_configuration
         {| dotenv_file_exists := true;
            GEMINI_API_KEY := Some "not-a-gemini-key";
            OPENWEATHER_API_KEY := Some "short" |} empty_world) = Return true.
Proof.
  apply (env_check_needs_presence_only
           {| dotenv_file_exists := true;
              GEMINI_API_KEY := Some "not-a-gemini-key";
              OPENWEATHER_API_KEY := Some "short" |} empty_world).
  repeat split; eexists; (split; [reflexivity | discriminate]).
Defined.

End ConfigExtras.
